(** * Resume analyser: the ensemble decision engine of [ensemble_model.py]

    A shallow embedding of [ResumeAnalyzer]: feature extraction from the
    resume text, the rule-based scorer, the fusion of the rule scores with
    the classifier's probabilities, and the recommendations.

    Conventions of the embedding.
    - A Python [float] is a rational ([Q]); numeric results are compared
      with [==].  The unnormalized points are small integers and the
      thresholds are dyadic, so the comparisons of the scorer are the
      exact ones.  The CGPA is read by [float] and divided as a float:
      both round to the nearest binary64 number, ties to even, and a
      number too large for a binary64 is [infinity], kept as the
      rational 2^1024 (no float is that large, and comparing with it or
      dividing it behaves as [inf] does).
    - A [str] is a [string] whose characters are the code points below
      256.
    - A [dict] keyed by the four category labels is an association list in
      insertion order (the order decides [max] on ties).
    - A Python exception is the left injection of a [sum]. *)

From Stdlib Require Import ZArith QArith Qminmax Qabs Qround Qpower.
From Stdlib Require Import List String Ascii Bool Lia Lqa.
From ExtLib Require Import Structures.Monad Structures.MonadState Structures.MonadExc.
From ExtLib Require Import Data.Monads.StateMonad Data.Monads.EitherMonad.
Import ListNotations.
Import MonadNotation.

#[local] Existing Instance Monad_stateT.

Local Open Scope Q_scope.

(** ** Categories and dictionaries *)

(** The four labels of [label_map] (data_preprocess.py). *)
Inductive Category : Type :=
| Private_Job
| Higher_Studies
| Research_Field
| Skill_Improvement.

Definition label (c : Category) : string :=
  match c with
  | Private_Job => "Private Job"
  | Higher_Studies => "Higher Studies"
  | Research_Field => "Research Field"
  | Skill_Improvement => "Skill Improvement"
  end.

Definition category_eqb (a b : Category) : bool :=
  match a, b with
  | Private_Job, Private_Job
  | Higher_Studies, Higher_Studies
  | Research_Field, Research_Field
  | Skill_Improvement, Skill_Improvement => true
  | _, _ => false
  end.

(** [label_map] as written by data_preprocess.py and reloaded from JSON. *)
Definition label_map : list (Category * Z) :=
  [ (Private_Job, 0%Z); (Higher_Studies, 1%Z);
    (Research_Field, 2%Z); (Skill_Improvement, 3%Z) ].

Inductive exn : Type :=
| KeyError
| ValueError.

Definition Dict : Type := list (Category * Q).

Definition keys (d : Dict) : list Category := map fst d.
Definition values (d : Dict) : list Q := map snd d.

(** [d.get(k)], [None] when the key is missing. *)
Fixpoint dict_get (d : Dict) (k : Category) : option Q :=
  match d with
  | [] => None
  | (k', v) :: d' => if category_eqb k k' then Some v else dict_get d' k
  end.

(** [d.get(k, dflt)]. *)
Definition dict_get_default (d : Dict) (k : Category) (dflt : Q) : Q :=
  match dict_get d k with
  | Some v => v
  | None => dflt
  end.

(** [d[k]], raising [KeyError] on a missing key. *)
Definition dict_item (d : Dict) (k : Category) : exn + Q :=
  match dict_get d k with
  | Some v => inr v
  | None => inl KeyError
  end.

(** [d[k] = v]: overwrite in place, or append a new key. *)
Fixpoint dict_set (d : Dict) (k : Category) (v : Q) : Dict :=
  match d with
  | [] => [(k, v)]
  | (k', v') :: d' =>
      if category_eqb k k' then (k', v) :: d' else (k', v') :: dict_set d' k v
  end.

(** [{k: g(v) for k, v in d.items()}]. *)
Definition dict_map_values (g : Q -> Q) (d : Dict) : Dict :=
  map (fun kv => (fst kv, g (snd kv))) d.

(** Two dicts with the same keys in the same order and equal numbers. *)
Definition dict_eq (d d' : Dict) : Prop :=
  Forall2 (fun kv kv' => fst kv = fst kv' /\ snd kv == snd kv') d d'.

Definition all_categories : list Category :=
  [Private_Job; Higher_Studies; Research_Field; Skill_Improvement].

(** [score d k]: the number [d] holds for [k]. *)
Abbreviation score d k := (dict_get_default d k 0).

(** ** Python's comparisons and [max] *)

Definition Qleb (a b : Q) : bool := Qle_bool a b.
Definition Qltb (a b : Q) : bool := negb (Qle_bool b a).

(** [max(a, b)]: the first argument unless the second is strictly larger. *)
Definition py_max2 (a b : Q) : Q := if Qltb a b then b else a.

(** [max(xs)] of a sequence: the first maximal element; [ValueError] on
    an empty sequence. *)
Definition py_max (xs : list Q) : exn + Q :=
  match xs with
  | [] => inl ValueError
  | x :: xs' => inr (fold_left py_max2 xs' x)
  end.

(** [max(d, key=d.get)]: the first key whose value is maximal. *)
Definition py_max_key (d : Dict) : exn + Category :=
  match d with
  | [] => inl ValueError
  | kv :: d' =>
      inr (fst (fold_left
                  (fun best kv' => if Qltb (snd best) (snd kv') then kv' else best)
                  d' kv))
  end.

(** [sum(xs)]. *)
Definition py_sum (xs : list Q) : Q := fold_left Qplus xs 0.

(** ** Features *)

Record ResumeFeatures : Type := mkFeatures {
  cgpa : option Q;
  skills : list string;
  has_internship : bool;
  has_projects : bool;
  has_research : bool;
  has_certifications : bool
}.

(** [features["cgpa"] or 0]: [None] and [0.0] are both falsy. *)
Definition cgpa_or_zero (f : ResumeFeatures) : Q :=
  match cgpa f with
  | Some q => if Qeq_bool q 0 then 0 else q
  | None => 0
  end.

Definition skills_count (f : ResumeFeatures) : nat := List.length (skills f).

(** ** The rule scorer *)

(** Statements of [rule_based_score] run on the [scores] dict and may raise. *)
Definition Scoring : Type -> Type := stateT Dict (sum exn).

(** [scores[k] += n]. *)
Definition add_points (k : Category) (n : Q) : Scoring unit :=
  (scores <- get ;;
   match dict_get scores k with
   | Some v => put (dict_set scores k (v + n))
   | None => raise KeyError
   end)%monad.

Definition pass : Scoring unit := ret tt.

Definition when (b : bool) (body : Scoring unit) : Scoring unit :=
  if b then body else pass.

Local Open Scope nat_scope.

(** Lines 110-164: the four blocks of rules, in source order. *)
Definition score_rules (f : ResumeFeatures) : Scoring unit :=
  (let cgpa := cgpa_or_zero f in
   let skills_count := skills_count f in
   (* private job *)
   when (has_internship f) (add_points Private_Job 35%Q) ;;
   (if 10 <=? skills_count then add_points Private_Job 30%Q
    else when (8 <=? skills_count) (add_points Private_Job 20%Q)) ;;
   when (Qleb 7.5%Q cgpa) (add_points Private_Job 20%Q) ;;
   when (has_projects f) (add_points Private_Job 15%Q) ;;
   (* higher studies *)
   (if Qleb 9.0%Q cgpa then add_points Higher_Studies 50%Q
    else if Qleb 8.5%Q cgpa then add_points Higher_Studies 40%Q
    else when (Qleb 8.0%Q cgpa) (add_points Higher_Studies 25%Q)) ;;
   when (has_projects f) (add_points Higher_Studies 15%Q) ;;
   when (6 <=? skills_count) (add_points Higher_Studies 10%Q) ;;
   when (has_internship f) (add_points Higher_Studies (-5)%Q) ;;
   (* research field *)
   when (has_research f) (add_points Research_Field 50%Q) ;;
   (if Qleb 9.0%Q cgpa then add_points Research_Field 35%Q
    else when (Qleb 8.5%Q cgpa) (add_points Research_Field 25%Q)) ;;
   when (has_projects f) (add_points Research_Field 10%Q) ;;
   (* skill improvement *)
   (if skills_count <? 4 then add_points Skill_Improvement 40%Q
    else when (skills_count <? 6) (add_points Skill_Improvement 20%Q)) ;;
   (if Qltb cgpa 6.0%Q then add_points Skill_Improvement 35%Q
    else when (Qltb cgpa 7.0%Q) (add_points Skill_Improvement 20%Q)) ;;
   when (negb (has_internship f)) (add_points Skill_Improvement 15%Q) ;;
   when (negb (has_projects f)) (add_points Skill_Improvement 15%Q))%monad.

Local Open Scope Q_scope.

(** Lines 103-108: the initial [scores]. *)
Definition initial_scores : Dict :=
  [ (Private_Job, 0.0); (Higher_Studies, 0.0);
    (Research_Field, 0.0); (Skill_Improvement, 0.0) ].

(** The unnormalized point totals: [scores] as it stands before line 166. *)
Definition unnormalized_scores (f : ResumeFeatures) : exn + Dict :=
  match runStateT (score_rules f) initial_scores with
  | inl e => inl e
  | inr (_, scores) => inr scores
  end.

(** Line 167. *)
Definition clamp (scores : Dict) : Dict :=
  dict_map_values (fun v => py_max2 0 v) scores.

(** Lines 166-176: clamp at zero, then divide by the maximum or fall back
    to the uniform 0.25. *)
Definition normalize_scores (scores : Dict) : exn + Dict :=
  let scores := clamp scores in
  match py_max (values scores) with
  | inl e => inl e
  | inr max_score =>
      if Qltb 0 max_score
      then inr (dict_map_values (fun v => v / max_score) scores)
      else inr (dict_map_values (fun _ => 0.25) scores)
  end.

Definition rule_based_score (f : ResumeFeatures) : exn + Dict :=
  match unnormalized_scores f with
  | inl e => inl e
  | inr scores => normalize_scores scores
  end.

Definition empty_features : ResumeFeatures :=
  mkFeatures None [] false false false false.

(** ** Feature extraction *)

Local Open Scope string_scope.

(** [str.lower] on one character (code points below 256). *)
Definition lower_char (c : ascii) : ascii :=
  let n := nat_of_ascii c in
  if ((65 <=? n) && (n <=? 90) ||
      (192 <=? n) && (n <=? 222) && negb (n =? 215))%nat
  then ascii_of_nat (n + 32)
  else c.

Fixpoint lower (s : string) : string :=
  match s with
  | EmptyString => EmptyString
  | String c s' => String (lower_char c) (lower s')
  end.

(** [sub in text]. *)
Fixpoint contains (sub text : string) : bool :=
  String.prefix sub text ||
  match text with
  | EmptyString => false
  | String _ text' => contains sub text'
  end.

(** The character classes of the two patterns: [\d], [\s] and [[:\s]]. *)
Definition is_digit (c : ascii) : bool :=
  let n := nat_of_ascii c in ((48 <=? n) && (n <=? 57))%nat.

Definition is_space (c : ascii) : bool :=
  let n := nat_of_ascii c in
  ((9 <=? n) && (n <=? 13) || (28 <=? n) && (n <=? 32) ||
   (n =? 133) || (n =? 160))%nat.

Definition is_sep (c : ascii) : bool :=
  Ascii.eqb c ":" || is_space c.

(** A greedy run of a character class: the matched run and the rest. *)
Fixpoint span (p : ascii -> bool) (s : string) : string * string :=
  match s with
  | EmptyString => (EmptyString, EmptyString)
  | String c s' =>
      if p c then let (run, rest) := span p s' in (String c run, rest)
      else (EmptyString, s)
  end.

(** The literal [kw] under [re.IGNORECASE], anchored: the rest of the text. *)
Fixpoint match_keyword (kw s : string) : option string :=
  match kw, s with
  | EmptyString, _ => Some s
  | String _ _, EmptyString => None
  | String k kw', String c s' =>
      if Ascii.eqb (lower_char k) (lower_char c) then match_keyword kw' s'
      else None
  end.

(** The group of the patterns, anchored: digits, an optional dot, more
    digits (each run greedy); the text of the group. *)
Definition match_number (s : string) : option string :=
  let (int_part, rest) := span is_digit s in
  match int_part with
  | EmptyString => None
  | String _ _ =>
      match rest with
      | String "." rest' =>
          let (frac_part, _) := span is_digit rest' in
          Some (int_part ++ "." ++ frac_part)
      | _ => Some int_part
      end
  end.

(** A pattern anchored at the start of [s]: the keyword, a greedy run of
    [[:\s]], then the group; the result is [group(1)].  The classes
    [[:\s]] and [\d] are disjoint and the number can always stop, so the
    greedy choice is the only one to try. *)
Definition match_here (kw s : string) : option string :=
  match match_keyword kw s with
  | None => None
  | Some rest => let (_, rest') := span is_sep rest in match_number rest'
  end.

(** [re.search(pattern, text, re.IGNORECASE)]: the leftmost position at
    which the pattern matches. *)
Fixpoint re_search (kw s : string) : option string :=
  match match_here kw s with
  | Some g => Some g
  | None =>
      match s with
      | EmptyString => None
      | String _ s' => re_search kw s'
      end
  end.

Fixpoint digits_value (acc : Z) (s : string) : Z :=
  match s with
  | EmptyString => acc
  | String c s' => digits_value (10 * acc + Z.of_nat (nat_of_ascii c - 48)) s'
  end.

(** The decimal value written by the text [g] of a group. *)
Definition decimal_value (g : string) : Q :=
  let (int_part, rest) := span is_digit g in
  match rest with
  | EmptyString => inject_Z (digits_value 0 int_part)
  | String _ frac_part =>
      inject_Z (digits_value (digits_value 0 int_part) frac_part)
      / inject_Z (10 ^ Z.of_nat (String.length frac_part))
  end.

(** *** Binary64 rounding *)

Definition pow2 (z : Z) : Q := 2 ^ z.

(** The exponent [e] with [2^e <= q < 2^(e+1)], for a positive [q]. *)
Definition binade (q : Q) : Z :=
  let e := (Z.log2 (Qnum q) - Z.log2 (Zpos (Qden q)))%Z in
  if Qle_bool (pow2 e) q then e else (e - 1)%Z.

(** The nearest integer, a tie going to the even one. *)
Definition round_half_even (x : Q) : Z :=
  let fl := Qfloor x in
  match Qcompare (x - inject_Z fl) (1 # 2) with
  | Lt => fl
  | Gt => (fl + 1)%Z
  | Eq => if Z.even fl then fl else (fl + 1)%Z
  end.

(** [inf], as the rational at which rounding overflows. *)
Definition infinity : Q := pow2 1024.

(** The binary64 number nearest to a non-negative [q]: 53 significant
    bits, exponents down to that of the subnormal numbers, [infinity]
    from 2^1024 on. *)
Definition round_double (q : Q) : Q :=
  if Qle_bool q 0 then 0
  else
    let ex := Z.max (binade q - 52) (-1074) in
    let r := inject_Z (round_half_even (q / pow2 ex)) * pow2 ex in
    if Qle_bool infinity r then infinity else r.

(** [a / b] on floats, for non-negative [a] and positive [b]. *)
Definition float_div (a b : Q) : Q :=
  if Qle_bool infinity a then infinity else round_double (a / b).

(** [float(g)] for the text [g] of a group: the binary64 number nearest
    to its decimal value. *)
Definition float_of_decimal (g : string) : Q :=
  round_double (decimal_value g).

(** The keywords of the two patterns of [_extract_cgpa], in source order. *)
Definition patterns : list string := ["CGPA"; "GPA"].

Fixpoint first_pattern (patterns : list string) (text : string) : option Q :=
  match patterns with
  | [] => None
  | pattern :: patterns' =>
      match re_search pattern text with
      | Some g =>
          let cgpa := float_of_decimal g in
          Some (if Qleb cgpa 10 then cgpa else float_div cgpa 10)
      | None => first_pattern patterns' text
      end
  end.

Definition _extract_cgpa (text : string) : option Q :=
  first_pattern patterns text.

Definition skills_db : list string :=
  [ "Python"; "Java"; "JavaScript"; "C++"; "C"; "React"; "Node.js";
    "Angular"; "Vue"; "Machine Learning"; "Deep Learning"; "TensorFlow";
    "PyTorch"; "Keras"; "MongoDB"; "MySQL"; "PostgreSQL"; "Redis"; "AWS";
    "Azure"; "Docker"; "Kubernetes"; "Git" ].

Definition _extract_skills (text : string) : list string :=
  let text_lower := lower text in
  filter (fun s => contains (lower s) text_lower) skills_db.

Definition _has_keyword (text : string) (keywords : list string) : bool :=
  let text_lower := lower text in
  existsb (fun kw => contains kw text_lower) keywords.

Definition extract_features (text : string) : ResumeFeatures :=
  {| cgpa := _extract_cgpa text;
     skills := _extract_skills text;
     has_internship := _has_keyword text ["intern"; "internship"];
     has_projects := _has_keyword text ["project"];
     has_research := _has_keyword text ["research"; "publication"; "paper"];
     has_certifications :=
       _has_keyword text ["certified"; "certificate"; "certification"] |}.

Local Close Scope string_scope.

(** ** Ensemble prediction *)

(** The fields of [self] that [predict] reads; the embedder and the
    classifier are external and enter [predict] through their outputs. *)
Record ResumeAnalyzer : Type := mkAnalyzer {
  label_map_of : list (Category * Z);
  ml_weight : Q;
  rule_weight : Q
}.

(** [__init__]: the persisted label map and the balanced weights. *)
Definition analyzer : ResumeAnalyzer :=
  {| label_map_of := label_map; ml_weight := 0.5; rule_weight := 0.5 |}.

(** [self.id_to_label[i]]. *)
Fixpoint id_to_label (lm : list (Category * Z)) (i : Z) : exn + Category :=
  match lm with
  | [] => inl KeyError
  | (k, v) :: lm' =>
      match id_to_label lm' i with
      | inr k' => inr k'
      | inl _ => if Z.eqb v i then inr k else inl KeyError
      end
  end.

(** Lines 197-201: the weighted combination, a missing key counting 0. *)
Definition combine (self : ResumeAnalyzer) (ml_probs_dict rule_probs : Dict) : Dict :=
  fold_left
    (fun ensemble_probs category =>
       dict_set ensemble_probs category
         (ml_weight self * dict_get_default ml_probs_dict category 0
          + rule_weight self * dict_get_default rule_probs category 0))
    (map fst (label_map_of self)) [].

(** Lines 203-206. *)
Definition renormalize (ensemble_probs : Dict) : Dict :=
  let total := py_sum (values ensemble_probs) in
  if Qltb 0 total
  then dict_map_values (fun v => v / total) ensemble_probs
  else ensemble_probs.

Record Fusion : Type := mkFusion {
  final_category : Category;
  final_confidence : Q;
  ensemble_probs : Dict
}.

(** Lines 196-209 of [predict]: the fusion of the two distributions. *)
Definition fuse (self : ResumeAnalyzer) (ml_probs_dict rule_probs : Dict)
  : exn + Fusion :=
  (let ensemble_probs := renormalize (combine self ml_probs_dict rule_probs) in
   final_category <- py_max_key ensemble_probs ;;
   confidence <- dict_item ensemble_probs final_category ;;
   ret (mkFusion final_category confidence ensemble_probs))%monad.

(** The winner [predict] reports, if it reports one. *)
Definition winner (r : exn + Fusion) : option Category :=
  match r with
  | inr fu => Some (final_category fu)
  | inl _ => None
  end.

Record Prediction : Type := mkPrediction {
  category : Category;
  confidence : Q;
  probabilities : Dict;
  features : ResumeFeatures;
  ml_prediction : Category;
  rule_prediction : Category;
  ml_probabilities : Dict;
  rule_probabilities : Dict
}.

(** [{self.id_to_label[i]: prob for i, prob in enumerate(ml_probs)}]. *)
Fixpoint ml_probs_to_dict (lm : list (Category * Z)) (i : Z) (ml_probs : list Q)
    (acc : Dict) : exn + Dict :=
  match ml_probs with
  | [] => inr acc
  | prob :: ml_probs' =>
      (k <- id_to_label lm i ;;
       ml_probs_to_dict lm (i + 1) ml_probs' (dict_set acc k prob))%monad
  end.

(** [predict], given what the classifier answers on the embedding:
    [ml_pred_id] and [ml_probs]. *)
Definition predict (self : ResumeAnalyzer) (resume_text : string)
    (ml_pred_id : Z) (ml_probs : list Q) : exn + Prediction :=
  (let features := extract_features resume_text in
   ml_prediction <- id_to_label (label_map_of self) ml_pred_id ;;
   ml_probs_dict <- ml_probs_to_dict (label_map_of self) 0 ml_probs [] ;;
   rule_probs <- rule_based_score features ;;
   rule_prediction <- py_max_key rule_probs ;;
   fu <- fuse self ml_probs_dict rule_probs ;;
   ret {| category := final_category fu;
          confidence := final_confidence fu;
          probabilities := ensemble_probs fu;
          features := features;
          ml_prediction := ml_prediction;
          rule_prediction := rule_prediction;
          ml_probabilities := ml_probs_dict;
          rule_probabilities := rule_probs |})%monad.

(** ** Recommendations *)

Local Open Scope string_scope.

(** [features["cgpa"] and features["cgpa"] < 7.0]. *)
Definition cgpa_present_below (f : ResumeFeatures) (hi : Q) : bool :=
  match cgpa f with
  | None => false
  | Some q => negb (Qeq_bool q 0) && Qltb q hi
  end.

Definition generate_recommendations (result : Prediction) : list string :=
  let category := category result in
  let features := features result in
  match category with
  | Private_Job =>
      (if (List.length (skills features) <? 10)%nat
       then ["Learn 2-3 more in-demand technologies"] else [])
      ++ (if negb (has_certifications features)
          then ["Get industry certifications (AWS, Azure, etc.)"] else [])
      ++ ["Practice DSA on LeetCode/HackerRank"]
      ++ ["Build strong GitHub portfolio"]
  | Higher_Studies =>
      ["Prepare for GRE/GATE exams"]
      ++ ["Research universities and programs"]
      ++ ["Request letters of recommendation"]
      ++ ["Write compelling Statement of Purpose"]
  | Research_Field =>
      ["Publish papers in conferences/journals"]
      ++ ["Connect with professors in your field"]
      ++ ["Apply for research internships"]
      ++ ["Consider PhD programs"]
  | Skill_Improvement =>
      (if (List.length (skills features) <? 5)%nat
       then ["Learn core programming: Python, Java, or JavaScript"] else [])
      ++ (if negb (has_projects features)
          then ["Build 3-4 substantial projects"] else [])
      ++ ["Take online courses (Coursera, Udemy)"]
      ++ ["Participate in hackathons"]
      ++ (if cgpa_present_below features 7.0
          then ["Focus on improving academic performance"] else [])
  end.

Local Close Scope string_scope.

(** ** The rule table, as the specification words it

    Each rule names the signal it is keyed on, the Category it feeds, a
    predicate over the feature record alone, and its points.  The
    [elif] arms of the source become disjoint threshold bands. *)

Inductive signal : Type :=
| On_cgpa
| On_skills
| On_internship
| On_projects
| On_research.

Definition signal_eqb (a b : signal) : bool :=
  match a, b with
  | On_cgpa, On_cgpa
  | On_skills, On_skills
  | On_internship, On_internship
  | On_projects, On_projects
  | On_research, On_research => true
  | _, _ => false
  end.

Record rule : Type := mkRule {
  keyed_on : signal;
  target : Category;
  fires : ResumeFeatures -> bool;
  points : Q
}.

Definition cgpa_at_least (lo : Q) (f : ResumeFeatures) : bool :=
  Qleb lo (cgpa_or_zero f).
Definition cgpa_below (hi : Q) (f : ResumeFeatures) : bool :=
  Qltb (cgpa_or_zero f) hi.
Definition cgpa_band (lo hi : Q) (f : ResumeFeatures) : bool :=
  Qleb lo (cgpa_or_zero f) && negb (Qleb hi (cgpa_or_zero f)).
Definition skills_at_least (lo : nat) (f : ResumeFeatures) : bool :=
  (lo <=? skills_count f)%nat.
Definition skills_below (hi : nat) (f : ResumeFeatures) : bool :=
  (skills_count f <? hi)%nat.
Definition skills_band (lo hi : nat) (f : ResumeFeatures) : bool :=
  (lo <=? skills_count f)%nat && negb (hi <=? skills_count f)%nat.

Definition rule_table : list rule :=
  [ mkRule On_internship Private_Job has_internship 35;
    mkRule On_skills Private_Job (skills_at_least 10) 30;
    mkRule On_skills Private_Job (skills_band 8 10) 20;
    mkRule On_cgpa Private_Job (cgpa_at_least 7.5) 20;
    mkRule On_projects Private_Job has_projects 15;
    mkRule On_cgpa Higher_Studies (cgpa_at_least 9.0) 50;
    mkRule On_cgpa Higher_Studies (cgpa_band 8.5 9.0) 40;
    mkRule On_cgpa Higher_Studies (cgpa_band 8.0 8.5) 25;
    mkRule On_projects Higher_Studies has_projects 15;
    mkRule On_skills Higher_Studies (skills_at_least 6) 10;
    mkRule On_internship Higher_Studies has_internship (-5);
    mkRule On_research Research_Field has_research 50;
    mkRule On_cgpa Research_Field (cgpa_at_least 9.0) 35;
    mkRule On_cgpa Research_Field (cgpa_band 8.5 9.0) 25;
    mkRule On_projects Research_Field has_projects 10;
    mkRule On_skills Skill_Improvement (skills_below 4) 40;
    mkRule On_skills Skill_Improvement (fun f => negb (skills_below 4 f) && skills_below 6 f) 20;
    mkRule On_cgpa Skill_Improvement (cgpa_below 6.0) 35;
    mkRule On_cgpa Skill_Improvement (fun f => negb (cgpa_below 6.0 f) && cgpa_below 7.0 f) 20;
    mkRule On_internship Skill_Improvement (fun f => negb (has_internship f)) 15;
    mkRule On_projects Skill_Improvement (fun f => negb (has_projects f)) 15 ].

Definition rules_on (s : signal) : list rule :=
  filter (fun r => signal_eqb (keyed_on r) s) rule_table.

(** The points a table gives Category [c] on [f]: the sum over the rules
    that feed [c] and fire on [f]. *)
Definition rule_points (r : rule) (f : ResumeFeatures) (c : Category) : Q :=
  if category_eqb (target r) c && fires r f then points r else 0.

Definition contribution (tbl : list rule) (f : ResumeFeatures) (c : Category) : Q :=
  fold_right (fun r acc => rule_points r f c + acc) 0 tbl.

(** The rules keyed on every other signal. *)
Definition rules_off (s : signal) : list rule :=
  filter (fun r => negb (signal_eqb (keyed_on r) s)) rule_table.

(** ** Notions used by the statements *)

(** The same record with another CGPA. *)
Definition set_cgpa (f : ResumeFeatures) (c : option Q) : ResumeFeatures :=
  {| cgpa := c;
     skills := skills f;
     has_internship := has_internship f;
     has_projects := has_projects f;
     has_research := has_research f;
     has_certifications := has_certifications f |}.

(** [text[i:]]. *)
Fixpoint drop (i : nat) (text : string) : string :=
  match i, text with
  | O, _ => text
  | S i', String _ text' => drop i' text'
  | S _, EmptyString => EmptyString
  end.

(** [match_here] finds the group [g] at position [i]. *)
Definition matches_at (kw text : string) (i : nat) (g : string) : Prop :=
  match_here kw (drop i text) = Some g.

Definition no_match_at (kw text : string) (i : nat) : Prop :=
  match_here kw (drop i text) = None.

(** The leftmost position at which [match_here] finds a group. *)
Definition leftmost_match (kw text : string) (i : nat) (g : string) : Prop :=
  matches_at kw text i g /\ forall j, (j < i)%nat -> no_match_at kw text j.

Definition no_match (kw text : string) : Prop :=
  forall j, no_match_at kw text j.

(** *** What the patterns match, in the words of the regular expression

    The pattern of a keyword is the keyword in any case, any run of
    colons and white space, then the group: one or more digits, an
    optional dot, any more digits, every run taking all it can. *)

Fixpoint same_nocase (kw k : string) : Prop :=
  match kw, k with
  | EmptyString, EmptyString => True
  | String a kw', String c k' => lower_char a = lower_char c /\ same_nocase kw' k'
  | _, _ => False
  end.

Fixpoint all_in (p : ascii -> bool) (s : string) : bool :=
  match s with
  | EmptyString => true
  | String c s' => p c && all_in p s'
  end.

Definition starts_with (p : ascii -> bool) (s : string) : bool :=
  match s with
  | EmptyString => false
  | String c _ => p c
  end.

Definition is_dot (c : ascii) : bool := Ascii.eqb c ".".

(** [g] is the group read in front of [rest]: the digits end where
    [rest] (or the dot) begins, and a dot that follows them is taken. *)
Definition greedy_number (g rest : string) : Prop :=
  exists int_part,
    int_part <> EmptyString /\
    all_in is_digit int_part = true /\
    starts_with is_digit rest = false /\
    (g = int_part /\ starts_with is_dot rest = false \/
     exists frac_part,
       g = (int_part ++ "." ++ frac_part)%string /\
       all_in is_digit frac_part = true).

(** The pattern of [kw] matches at the start of [s], with group [g]. *)
Definition pattern_match (kw s g : string) : Prop :=
  exists k sep rest,
    s = (k ++ sep ++ g ++ rest)%string /\
    same_nocase kw k /\
    all_in is_sep sep = true /\
    greedy_number g rest.

(** The pattern of [kw] matches at position [i] of [text], with group [g]. *)
Definition pattern_at (kw text : string) (i : nat) (g : string) : Prop :=
  pattern_match kw (drop i text) g.

Definition no_pattern_at (kw text : string) (i : nat) : Prop :=
  forall g, ~ pattern_match kw (drop i text) g.

(** The leftmost match of one pattern. *)
Definition leftmost_pattern (kw text : string) (i : nat) (g : string) : Prop :=
  pattern_at kw text i g /\ forall j, (j < i)%nat -> no_pattern_at kw text j.

Definition pattern_nowhere (kw text : string) : Prop :=
  forall j, no_pattern_at kw text j.

(** The leftmost match of either pattern, whichever keyword it has. *)
Definition leftmost_pattern_of_either (text : string) (i : nat) (g : string) : Prop :=
  (pattern_at "CGPA" text i g \/ pattern_at "GPA" text i g) /\
  forall j, (j < i)%nat -> no_pattern_at "CGPA" text j /\ no_pattern_at "GPA" text j.

(** Line 58: values above 10 are brought back to the 0-10 scale. *)
Definition scale_cgpa (v : Q) : Q := if Qleb v 10 then v else float_div v 10.

(** ** Sample inputs *)

Definition strong_intern : ResumeFeatures :=
  mkFeatures (Some 9.2) ["Python"; "Git"]%string true false false false.

(** Scores on which no category is left with a positive number. *)
Definition nothing_fired : Dict :=
  [ (Private_Job, 0); (Higher_Studies, -5);
    (Research_Field, 0); (Skill_Improvement, 0) ].

Definition no_cgpa_two_skills : ResumeFeatures :=
  mkFeatures None ["Python"; "Git"]%string false true false false.

(** The literal vectors of the fusion example. *)
Definition example_ml : Dict :=
  [ (Private_Job, 0.1); (Higher_Studies, 0.5);
    (Research_Field, 0.3); (Skill_Improvement, 0.1) ].

Definition example_rule : Dict :=
  [ (Private_Job, 0.0); (Higher_Studies, 0.2);
    (Research_Field, 1.0); (Skill_Improvement, 0.0) ].

Definition all_zero : Dict :=
  [ (Private_Job, 0); (Higher_Studies, 0);
    (Research_Field, 0); (Skill_Improvement, 0) ].

Definition two_skills_low_cgpa : ResumeFeatures :=
  mkFeatures (Some 6.5) ["Python"; "Git"]%string false false false false.

Definition skill_improvement_result : Prediction :=
  {| category := Skill_Improvement;
     confidence := 0.6;
     probabilities := all_zero;
     features := two_skills_low_cgpa;
     ml_prediction := Skill_Improvement;
     rule_prediction := Skill_Improvement;
     ml_probabilities := all_zero;
     rule_probabilities := all_zero |}.

(** ** Further notions *)

Fixpoint all_digits (s : string) : bool :=
  match s with
  | EmptyString => true
  | String c s' => is_digit c && all_digits s'
  end.

(** The texts [float] is applied to: digits, or digits, a dot and digits. *)
Definition decimal_shape (g : string) : Prop :=
  exists int_part frac_part,
    int_part <> EmptyString /\
    all_digits int_part = true /\
    all_digits frac_part = true /\
    (g = int_part \/ g = (int_part ++ "." ++ frac_part)%string).

(** The position of a category in the label map: its id. *)
Definition category_index (c : Category) : nat :=
  match c with
  | Private_Job => 0
  | Higher_Studies => 1
  | Research_Field => 2
  | Skill_Improvement => 3
  end.

(** [k] is the arg-max [max(d, key=d.get)] picks: no category has a
    larger number, and the categories before [k] have a smaller one. *)
Definition first_argmax (d : Dict) (k : Category) : Prop :=
  (forall k', score d k' <= score d k) /\
  (forall k', (category_index k' < category_index k)%nat -> score d k' < score d k).

(** ** What a block of scoring statements does *)

(** [effect m e]: on a dict with the four keys, [m] does not raise, keeps
    the keys and adds [e k] to the number of every key [k]. *)
Definition effect (m : Scoring unit) (e : Category -> Q) : Prop :=
  forall s, keys s = all_categories ->
    exists s', runStateT m s = inr (tt, s') /\
               keys s' = all_categories /\
               forall k, score s' k == score s k + e k.

(** [adds m c x]: [m] adds [x] to Category [c] and nothing elsewhere. *)
Definition adds (m : Scoring unit) (c : Category) (x : Q) : Prop :=
  effect m (fun k => if category_eqb k c then x else 0).

(** The points [score_rules] adds to each category, statement by
    statement. *)
Definition rule_effect (f : ResumeFeatures) (k : Category) : Q :=
  let q := cgpa_or_zero f in
  let n := skills_count f in
  let at_ c x := if category_eqb k c then x else 0 in
  at_ Private_Job (if has_internship f then 35 else 0) +
  (at_ Private_Job (if (10 <=? n)%nat then 30 else if (8 <=? n)%nat then 20 else 0) +
  (at_ Private_Job (if Qleb 7.5 q then 20 else 0) +
  (at_ Private_Job (if has_projects f then 15 else 0) +
  (at_ Higher_Studies
     (if Qleb 9.0 q then 50 else if Qleb 8.5 q then 40 else if Qleb 8.0 q then 25 else 0) +
  (at_ Higher_Studies (if has_projects f then 15 else 0) +
  (at_ Higher_Studies (if (6 <=? n)%nat then 10 else 0) +
  (at_ Higher_Studies (if has_internship f then -5 else 0) +
  (at_ Research_Field (if has_research f then 50 else 0) +
  (at_ Research_Field (if Qleb 9.0 q then 35 else if Qleb 8.5 q then 25 else 0) +
  (at_ Research_Field (if has_projects f then 10 else 0) +
  (at_ Skill_Improvement (if (n <? 4)%nat then 40 else if (n <? 6)%nat then 20 else 0) +
  (at_ Skill_Improvement (if Qltb q 6.0 then 35 else if Qltb q 7.0 then 20 else 0) +
  (at_ Skill_Improvement (if negb (has_internship f) then 15 else 0) +
   at_ Skill_Improvement (if negb (has_projects f) then 15 else 0)))))))))))))).

(** ** Proofs: the rule scorer *)

Lemma four_keys (d : Dict) :
  keys d = all_categories ->
  exists a b c e,
    d = [(Private_Job, a); (Higher_Studies, b); (Research_Field, c); (Skill_Improvement, e)].
Proof.
  unfold keys, all_categories. intros H.
  destruct d as [|[k1 a] [|[k2 b] [|[k3 c] [|[k4 e] [|? ?]]]]]; try discriminate.
  cbn in H. injection H as -> -> -> ->. now exists a, b, c, e.
Qed.

Lemma adds_add_points (c : Category) (n : Q) : adds (add_points c n) c n.
Proof.
  intros s Hs. destruct (four_keys s Hs) as (a & b & x & y & ->).
  destruct c; (eexists; split; [reflexivity | split; [reflexivity |]]);
    intros k; destruct k; cbn; ring.
Qed.

Lemma adds_pass (c : Category) : adds pass c 0.
Proof.
  intros s Hs. exists s. split; [reflexivity | split; [assumption |]].
  intros k. destruct (category_eqb k c); ring.
Qed.

Lemma adds_when (b : bool) (m : Scoring unit) (c : Category) (x : Q) :
  adds m c x -> adds (when b m) c (if b then x else 0).
Proof. destruct b; [trivial | intros _; apply adds_pass]. Qed.

Lemma adds_if (b : bool) (m1 m2 : Scoring unit) (c : Category) (x1 x2 : Q) :
  adds m1 c x1 -> adds m2 c x2 ->
  adds (if b then m1 else m2) c (if b then x1 else x2).
Proof. destruct b; trivial. Qed.

Lemma effect_seq (m1 m2 : Scoring unit) (e1 e2 : Category -> Q) :
  effect m1 e1 -> effect m2 e2 ->
  effect (m1 ;; m2)%monad (fun k => e1 k + e2 k).
Proof.
  intros H1 H2 s Hs.
  destruct (H1 s Hs) as (s1 & R1 & K1 & E1).
  destruct (H2 s1 K1) as (s2 & R2 & K2 & E2).
  exists s2. split; [| split; [assumption |]].
  - cbn. cbn in R1. rewrite R1. cbn. exact R2.
  - intros k. rewrite E2, E1. ring.
Qed.

Ltac adds_tac :=
  first [ apply adds_add_points
        | apply adds_pass
        | apply adds_when; adds_tac
        | apply adds_if; adds_tac ].

Lemma score_rules_effect (f : ResumeFeatures) :
  effect (score_rules f) (rule_effect f).
Proof.
  unfold score_rules, rule_effect.
  cbv zeta.
  repeat (apply effect_seq; [adds_tac |]).
  adds_tac.
Qed.

Lemma Qleb_true (a b : Q) : Qleb a b = true <-> a <= b.
Proof. apply Qle_bool_iff. Qed.

Lemma Qleb_false (a b : Q) : Qleb a b = false <-> b < a.
Proof.
  unfold Qleb. rewrite <- not_true_iff_false, Qle_bool_iff.
  split; [apply Qnot_le_lt | apply Qlt_not_le].
Qed.

Lemma Qltb_true (a b : Q) : Qltb a b = true <-> a < b.
Proof. unfold Qltb. rewrite negb_true_iff. apply Qleb_false. Qed.

Lemma Qltb_false (a b : Q) : Qltb a b = false <-> b <= a.
Proof. unfold Qltb. rewrite negb_false_iff. apply Qleb_true. Qed.

Lemma Qleb_mono (a b q : Q) :
  Qleb a b = true -> Qleb b q = true -> Qleb a q = true.
Proof. rewrite !Qleb_true. apply Qle_trans. Qed.

Lemma rule_effect_table (f : ResumeFeatures) (k : Category) :
  rule_effect f k == contribution rule_table f k.
Proof.
  cbv [rule_effect contribution rule_points rule_table fold_right target fires points
       cgpa_at_least cgpa_below cgpa_band
       skills_at_least skills_below skills_band].
  generalize (cgpa_or_zero f) (skills_count f); intros q n.
  destruct f as [cg sk i p r ce]; cbv [has_internship has_projects has_research].
  destruct k; cbv [category_eqb andb].
  - destruct i, (10 <=? n)%nat, (8 <=? n)%nat, (Qleb 7.5 q), p; reflexivity.
  - destruct (Qleb 9.0 q) eqn:H90, (Qleb 8.5 q) eqn:H85, (Qleb 8.0 q),
      p, (6 <=? n)%nat, i;
      try reflexivity;
      rewrite (Qleb_mono 8.5 9.0 q) in H85 by (trivial || discriminate);
      discriminate.
  - destruct r, (Qleb 9.0 q), (Qleb 8.5 q), p; reflexivity.
  - destruct (n <? 4)%nat, (n <? 6)%nat, (Qltb q 6.0), (Qltb q 7.0), i, p;
      reflexivity.
Qed.

(** The unnormalized totals are the sums of the rule table. *)
Lemma unnormalized_scores_table (f : ResumeFeatures) :
  exists scores,
    unnormalized_scores f = inr scores /\
    keys scores = all_categories /\
    forall k, score scores k == contribution rule_table f k.
Proof.
  destruct (score_rules_effect f initial_scores eq_refl) as (s' & R & K & E).
  exists s'. unfold unnormalized_scores. rewrite R.
  split; [reflexivity | split; [assumption |]].
  intros k. rewrite E, rule_effect_table.
  destruct k; cbn; ring.
Qed.

(** *** Post-processing: clamp and normalize *)

Lemma py_max2_Qmax (a b : Q) : py_max2 a b == Qmax a b.
Proof.
  unfold py_max2. destruct (Qltb a b) eqn:H.
  - apply Qltb_true in H. symmetry. apply Q.max_r. now apply Qlt_le_weak.
  - apply Qltb_false in H. symmetry. now apply Q.max_l.
Qed.

Lemma py_max2_ge_l (a b : Q) : a <= py_max2 a b.
Proof. rewrite py_max2_Qmax. apply Q.le_max_l. Qed.

Lemma py_max2_ge_r (a b : Q) : b <= py_max2 a b.
Proof. rewrite py_max2_Qmax. apply Q.le_max_r. Qed.

Lemma py_max2_cases (a b : Q) : py_max2 a b = a \/ py_max2 a b = b.
Proof. unfold py_max2. destruct (Qltb a b); auto. Qed.

(** [max] of a non-empty sequence is one of its elements and bounds all. *)
Lemma fold_py_max2_spec (xs : list Q) (x : Q) :
  In (fold_left py_max2 xs x) (x :: xs) /\
  forall y, In y (x :: xs) -> y <= fold_left py_max2 xs x.
Proof.
  revert x. induction xs as [|z xs IH]; intros x; cbn [fold_left].
  - split; [now left |]. intros y [<- | []]. apply Qle_refl.
  - destruct (IH (py_max2 x z)) as [Hin Hub]. split.
    + destruct Hin as [Hin | Hin]; [| now right; right].
      rewrite <- Hin. destruct (py_max2_cases x z) as [-> | ->];
        [now left | now right; left].
    + intros y [<- | [<- | Hy]].
      * eapply Qle_trans; [apply py_max2_ge_l | apply Hub; now left].
      * eapply Qle_trans; [apply py_max2_ge_r | apply Hub; now left].
      * apply Hub. now right.
Qed.

Lemma score_clamp (raw : Dict) (k : Category) :
  keys raw = all_categories -> score (clamp raw) k = py_max2 0 (score raw k).
Proof.
  intros H. destruct (four_keys raw H) as (a & b & c & e & ->).
  destruct k; reflexivity.
Qed.

Lemma In_values_score (d : Dict) (v : Q) :
  keys d = all_categories -> In v (values d) <-> exists k, v = score d k.
Proof.
  intros H. destruct (four_keys d H) as (a & b & c & e & ->). cbn. split.
  - intros [<- | [<- | [<- | [<- | []]]]];
      [ exists Private_Job | exists Higher_Studies
      | exists Research_Field | exists Skill_Improvement ]; reflexivity.
  - intros [k ->]. destruct k; cbn; tauto.
Qed.

Lemma keys_dict_map_values (g : Q -> Q) (d : Dict) :
  keys (dict_map_values g d) = keys d.
Proof.
  unfold keys, dict_map_values. rewrite map_map. reflexivity.
Qed.

Lemma score_dict_map_values (g : Q -> Q) (d : Dict) (k : Category) :
  keys d = all_categories -> score (dict_map_values g d) k = g (score d k).
Proof.
  intros H. destruct (four_keys d H) as (a & b & c & e & ->).
  destruct k; reflexivity.
Qed.

(** What lines 166-176 return on a [scores] dict with the four keys. *)
Lemma normalize_scores_spec (raw : Dict) :
  keys raw = all_categories ->
  exists out m,
    normalize_scores raw = inr out /\
    keys out = all_categories /\
    py_max (values (clamp raw)) = inr m /\
    (forall k, Qmax 0 (score raw k) <= m) /\
    (exists k, m == Qmax 0 (score raw k)) /\
    (0 < m ->
       out = dict_map_values (fun v => v / m) (clamp raw) /\
       (forall k, score out k == Qmax 0 (score raw k) / m) /\
       (forall k, 0 <= score out k <= 1) /\
       (exists k, score out k == 1)) /\
    (m == 0 -> forall k, score out k == 0.25).
Proof.
  intros H.
  assert (Hc : keys (clamp raw) = all_categories)
    by (unfold clamp; now rewrite keys_dict_map_values).
  unfold normalize_scores. cbv zeta.
  destruct (values (clamp raw)) as [|x xs] eqn:Hv.
  { destruct (four_keys _ Hc) as (a & b & c & e & E). rewrite E in Hv. discriminate. }
  cbn [py_max]. set (m := fold_left py_max2 xs x).
  destruct (fold_py_max2_spec xs x) as [Hin Hub]. fold m in Hin, Hub.
  rewrite <- Hv in Hin, Hub.
  assert (Hle : forall k, Qmax 0 (score raw k) <= m).
  { intros k. rewrite <- py_max2_Qmax, <- score_clamp by assumption.
    apply Hub, In_values_score; eauto. }
  assert (Hex : exists k, m == Qmax 0 (score raw k)).
  { apply In_values_score in Hin; [| assumption]. destruct Hin as [k Hk].
    exists k. rewrite Hk, score_clamp by assumption. apply py_max2_Qmax. }
  destruct (Qltb 0 m) eqn:Hm.
  - apply Qltb_true in Hm.
    assert (Hs : forall k, score (dict_map_values (fun v => v / m) (clamp raw)) k
                           == Qmax 0 (score raw k) / m).
    { intros k. rewrite score_dict_map_values, score_clamp by assumption.
      now rewrite py_max2_Qmax. }
    exists (dict_map_values (fun v => v / m) (clamp raw)), m.
    split; [reflexivity |].
    split; [rewrite keys_dict_map_values; exact Hc |].
    split; [reflexivity |].
    split; [exact Hle |]. split; [exact Hex |]. split.
    + intros _. split; [reflexivity |]. split; [exact Hs |]. split.
      * intros k. rewrite Hs. split.
        -- apply Qle_shift_div_l; [assumption |].
           rewrite Qmult_0_l. apply Q.le_max_l.
        -- apply Qle_shift_div_r; [assumption |].
           rewrite Qmult_1_l. apply Hle.
      * destruct Hex as [k Hk]. exists k. rewrite Hs, <- Hk.
        field. intros E. rewrite E in Hm. now apply Qlt_irrefl in Hm.
    + intros E. rewrite E in Hm. now apply Qlt_irrefl in Hm.
  - apply Qltb_false in Hm.
    exists (dict_map_values (fun _ => 0.25) (clamp raw)), m.
    split; [reflexivity |].
    split; [rewrite keys_dict_map_values; exact Hc |].
    split; [reflexivity |].
    split; [exact Hle |]. split; [exact Hex |]. split.
    + intros Hpos. exfalso. apply (Qlt_irrefl 0).
      eapply Qlt_le_trans; eassumption.
    + intros _ k. rewrite score_dict_map_values by assumption. reflexivity.
Qed.

(** *** The rule table and the unnormalized totals *)

Lemma cgpa_or_zero_some (f : ResumeFeatures) (q : Q) :
  cgpa f = Some q -> cgpa_or_zero f == q.
Proof.
  unfold cgpa_or_zero. intros ->.
  destruct (Qeq_bool q 0) eqn:E; [| reflexivity].
  apply Qeq_bool_iff in E. now symmetry.
Qed.

Lemma contribution_split (p : rule -> bool) (tbl : list rule)
    (f : ResumeFeatures) (k : Category) :
  contribution tbl f k ==
  contribution (filter p tbl) f k + contribution (filter (fun r => negb (p r)) tbl) f k.
Proof.
  induction tbl as [|r tbl IH]; [reflexivity |].
  change (contribution (r :: tbl) f k)
    with (rule_points r f k + contribution tbl f k).
  rewrite IH. cbn [filter].
  destruct (p r); cbn [negb];
    match goal with
    | |- context [contribution (r :: ?t) f k] =>
        change (contribution (r :: t) f k)
          with (rule_points r f k + contribution t f k)
    end; ring.
Qed.

Ltac unfold_signal_rules :=
  cbv [contribution rules_on rule_table filter signal_eqb keyed_on fold_right
       rule_points target fires points category_eqb
       cgpa_at_least cgpa_below cgpa_band
       skills_at_least skills_below skills_band].

Lemma cgpa_rules_from_9 (f : ResumeFeatures) :
  9.0 <= cgpa_or_zero f ->
  contribution (rules_on On_cgpa) f Higher_Studies == 50 /\
  contribution (rules_on On_cgpa) f Research_Field == 35.
Proof.
  intros H. apply Qleb_true in H. unfold_signal_rules. rewrite H.
  rewrite (Qleb_mono 8.5 9.0 _ eq_refl H), (Qleb_mono 8.0 9.0 _ eq_refl H).
  split; reflexivity.
Qed.

Lemma skills_rules_below_4 (f : ResumeFeatures) :
  (skills_count f < 4)%nat ->
  contribution (rules_on On_skills) f Skill_Improvement == 40.
Proof.
  intros H. apply Nat.ltb_lt in H. unfold_signal_rules. rewrite H.
  generalize (skills_count f <? 6)%nat. intros [|]; reflexivity.
Qed.

Lemma internship_rules (f : ResumeFeatures) :
  has_internship f = true ->
  contribution (rules_on On_internship) f Private_Job == 35 /\
  contribution (rules_on On_internship) f Higher_Studies == -5.
Proof.
  intros H. unfold_signal_rules. rewrite H. split; reflexivity.
Qed.

Lemma table_by_signal (f : ResumeFeatures) (k : Category) :
  contribution rule_table f k ==
  contribution (rules_on On_cgpa) f k + contribution (rules_on On_skills) f k
  + contribution (rules_on On_internship) f k
  + contribution (rules_on On_projects) f k
  + contribution (rules_on On_research) f k.
Proof.
  cbv [contribution rules_on rule_table filter signal_eqb keyed_on fold_right].
  ring.
Qed.

(** C1.  For every feature record the unnormalized point totals are the
    sums of the rule table, whose rules are predicates on the features
    alone and add up signal by signal; a CGPA of at least 9.0 gives
    exactly 50 points to Higher Studies and 35 to Research Field, fewer
    than 4 skills give exactly 40 to Skill Improvement, and an internship
    gives exactly 35 to Private Job and -5 to Higher Studies. *)
Theorem rule_scores_are_table_sums (f : ResumeFeatures) :
  (exists raw,
      unnormalized_scores f = inr raw /\
      keys raw = all_categories /\
      forall k, score raw k == contribution rule_table f k) /\
  (forall k,
      contribution rule_table f k ==
      contribution (rules_on On_cgpa) f k + contribution (rules_on On_skills) f k
      + contribution (rules_on On_internship) f k
      + contribution (rules_on On_projects) f k
      + contribution (rules_on On_research) f k) /\
  (forall q, cgpa f = Some q -> 9.0 <= q ->
      contribution (rules_on On_cgpa) f Higher_Studies == 50 /\
      contribution (rules_on On_cgpa) f Research_Field == 35) /\
  ((skills_count f < 4)%nat ->
      contribution (rules_on On_skills) f Skill_Improvement == 40) /\
  (has_internship f = true ->
      contribution (rules_on On_internship) f Private_Job == 35 /\
      contribution (rules_on On_internship) f Higher_Studies == -5).
Proof.
  split; [apply unnormalized_scores_table |].
  split; [apply table_by_signal |].
  split; [| split; [apply skills_rules_below_4 | apply internship_rules]].
  intros q Hq H9. apply cgpa_rules_from_9.
  now rewrite (cgpa_or_zero_some f q Hq).
Qed.

Lemma rule_scores_are_table_sums_witness :
  (contribution (rules_on On_cgpa) strong_intern Higher_Studies == 50 /\
   contribution (rules_on On_cgpa) strong_intern Research_Field == 35) /\
  contribution (rules_on On_skills) strong_intern Skill_Improvement == 40 /\
  (contribution (rules_on On_internship) strong_intern Private_Job == 35 /\
   contribution (rules_on On_internship) strong_intern Higher_Studies == -5).
Proof.
  destruct (rule_scores_are_table_sums strong_intern) as (_ & _ & Hc & Hs & Hi).
  split; [apply (Hc 9.2); [reflexivity | vm_compute; discriminate] |].
  split; [apply Hs; vm_compute; lia | apply Hi; reflexivity].
Defined.

(** C2.  The scorer returns what lines 166-176 make of the unnormalized
    totals: every total is clamped at 0 and divided by the maximum of the
    clamped totals, so every output lies in [0,1] and some output is 1;
    when that maximum is 0 the four outputs are 0.25. *)
Theorem rule_scorer_normalizes :
  (forall f, exists raw,
      unnormalized_scores f = inr raw /\
      keys raw = all_categories /\
      rule_based_score f = normalize_scores raw) /\
  (forall raw, keys raw = all_categories ->
     exists out m,
       normalize_scores raw = inr out /\
       keys out = all_categories /\
       (forall k, Qmax 0 (score raw k) <= m) /\
       (exists k, m == Qmax 0 (score raw k)) /\
       (forall k, 0 <= score out k <= 1) /\
       (0 < m ->
          (forall k, score out k == Qmax 0 (score raw k) / m) /\
          (exists k, score out k == 1)) /\
       (m == 0 -> forall k, score out k == 0.25)).
Proof.
  split.
  - intros f. destruct (unnormalized_scores_table f) as (raw & R & K & _).
    exists raw. unfold rule_based_score. rewrite R. auto.
  - intros raw K.
    destruct (normalize_scores_spec raw K)
      as (out & m & N & Ko & _ & Hle & Hex & Hpos & Hzero).
    exists out, m.
    split; [exact N |]. split; [exact Ko |].
    split; [exact Hle |]. split; [exact Hex |]. split; [| split].
    + intros k. destruct (Qlt_le_dec 0 m) as [Hm | Hm].
      * now apply Hpos.
      * assert (E : m == 0).
        { apply Qle_antisym; [exact Hm |].
          eapply Qle_trans; [apply (Q.le_max_l 0 (score raw k)) | apply Hle]. }
        rewrite (Hzero E k). split; vm_compute; discriminate.
    + intros Hm. destruct (Hpos Hm) as (_ & Hs & _ & H1). auto.
    + exact Hzero.
Qed.

Lemma rule_scorer_normalizes_witness :
  keys nothing_fired = all_categories /\
  exists out, normalize_scores nothing_fired = inr out /\
              forall k, score out k == 0.25.
Proof.
  split; [reflexivity |].
  destruct (proj2 rule_scorer_normalizes nothing_fired eq_refl)
    as (out & m & N & _ & _ & Hex & _ & _ & Hzero).
  exists out. split; [exact N |]. apply Hzero.
  destruct Hex as [k ->]. destruct k; reflexivity.
Defined.

(** *** Some rule always fires *)

Lemma private_job_with_internship (f : ResumeFeatures) :
  has_internship f = true -> 35 <= contribution rule_table f Private_Job.
Proof.
  intros H. rewrite <- rule_effect_table.
  cbv [rule_effect category_eqb]. rewrite H.
  generalize (cgpa_or_zero f) (skills_count f); intros q n.
  destruct (10 <=? n)%nat, (8 <=? n)%nat, (Qleb 7.5 q), (has_projects f);
    vm_compute; discriminate.
Qed.

Lemma skill_improvement_without_internship (f : ResumeFeatures) :
  has_internship f = false -> 15 <= contribution rule_table f Skill_Improvement.
Proof.
  intros H. rewrite <- rule_effect_table.
  cbv [rule_effect category_eqb]. rewrite H.
  generalize (cgpa_or_zero f) (skills_count f); intros q n.
  destruct (n <? 4)%nat, (n <? 6)%nat, (Qltb q 6.0), (Qltb q 7.0),
    (has_projects f); vm_compute; discriminate.
Qed.

(** C9.  For every feature record some category has a strictly positive
    unnormalized total: Private Job at least 35 with an internship, Skill
    Improvement at least 15 without; so the maximum is strictly positive,
    the scorer returns the quotients and never the uniform 0.25, and some
    output is 1. *)
Theorem some_rule_always_fires (f : ResumeFeatures) :
  exists raw m out,
    unnormalized_scores f = inr raw /\
    (if has_internship f
     then 35 <= score raw Private_Job
     else 15 <= score raw Skill_Improvement) /\
    py_max (values (clamp raw)) = inr m /\
    0 < m /\
    rule_based_score f = inr out /\
    out = dict_map_values (fun v => v / m) (clamp raw) /\
    (exists k, score out k == 1) /\
    ~ (forall k, score out k == 0.25).
Proof.
  destruct (unnormalized_scores_table f) as (raw & R & K & T).
  destruct (normalize_scores_spec raw K)
    as (out & m & N & Ko & M & Hle & _ & Hpos & _).
  assert (B : if has_internship f
              then 35 <= score raw Private_Job
              else 15 <= score raw Skill_Improvement).
  { destruct (has_internship f) eqn:I; rewrite T.
    - now apply private_job_with_internship.
    - now apply skill_improvement_without_internship. }
  assert (Hm : 0 < m).
  { destruct (has_internship f).
    - eapply Qlt_le_trans; [| apply (Hle Private_Job)].
      eapply Qlt_le_trans; [| apply Q.le_max_r].
      eapply Qlt_le_trans; [| exact B]. reflexivity.
    - eapply Qlt_le_trans; [| apply (Hle Skill_Improvement)].
      eapply Qlt_le_trans; [| apply Q.le_max_r].
      eapply Qlt_le_trans; [| exact B]. reflexivity. }
  destruct (Hpos Hm) as (E & _ & _ & k1 & H1).
  exists raw, m, out.
  split; [exact R |]. split; [exact B |]. split; [exact M |].
  split; [exact Hm |].
  split; [unfold rule_based_score; rewrite R; exact N |].
  split; [exact E |]. split; [now exists k1 |].
  intros U. specialize (U k1). rewrite H1 in U. discriminate U.
Qed.

(** *** An absent CGPA *)

Lemma table_on_off (s : signal) (f : ResumeFeatures) (k : Category) :
  contribution rule_table f k ==
  contribution (rules_on s) f k + contribution (rules_off s) f k.
Proof. apply contribution_split. Qed.

Lemma cgpa_rules_at_zero (f : ResumeFeatures) :
  cgpa_or_zero f = 0 ->
  contribution (rules_on On_cgpa) f Skill_Improvement == 35 /\
  forall k, k <> Skill_Improvement -> contribution (rules_on On_cgpa) f k == 0.
Proof.
  intros H. split.
  - unfold_signal_rules. rewrite H. reflexivity.
  - intros k Hk. destruct k; try (now elim Hk);
      unfold_signal_rules; rewrite H; reflexivity.
Qed.

(** C10.  A record whose CGPA is absent (or 0.0) is scored exactly as the
    same record with CGPA 0.0: of the rules keyed on CGPA only the one
    for a CGPA below 6.0 fires, giving 35 points to Skill Improvement and
    nothing to the other categories, whereas a CGPA of 7.2 fires no rule
    keyed on CGPA at all. *)
Theorem absent_cgpa_scores_as_zero (f : ResumeFeatures) :
  cgpa f = None \/ (exists q, cgpa f = Some q /\ q == 0) ->
  unnormalized_scores f = unnormalized_scores (set_cgpa f (Some 0.0)) /\
  rule_based_score f = rule_based_score (set_cgpa f (Some 0.0)) /\
  (exists raw,
      unnormalized_scores f = inr raw /\
      forall k, score raw k ==
                contribution (rules_on On_cgpa) f k
                + contribution (rules_off On_cgpa) f k) /\
  contribution (rules_on On_cgpa) f Skill_Improvement == 35 /\
  (forall k, k <> Skill_Improvement ->
             contribution (rules_on On_cgpa) f k == 0) /\
  (forall k, contribution (rules_on On_cgpa) (set_cgpa f (Some 7.2)) k == 0).
Proof.
  intros H.
  assert (Z0 : cgpa_or_zero f = 0).
  { unfold cgpa_or_zero. destruct H as [-> | (q & -> & E)]; [reflexivity |].
    apply Qeq_bool_iff in E. now rewrite E. }
  assert (S0 : score_rules f = score_rules (set_cgpa f (Some 0.0))).
  { unfold score_rules. rewrite Z0. reflexivity. }
  assert (U0 : unnormalized_scores f = unnormalized_scores (set_cgpa f (Some 0.0))).
  { unfold unnormalized_scores. now rewrite S0. }
  split; [exact U0 |].
  split; [unfold rule_based_score; now rewrite U0 |].
  split.
  { destruct (unnormalized_scores_table f) as (raw & R & _ & T).
    exists raw. split; [exact R |].
    intros k. rewrite T. apply table_on_off. }
  split; [apply (cgpa_rules_at_zero f Z0) |].
  split; [apply (cgpa_rules_at_zero f Z0) |].
  intros k. destruct k; unfold_signal_rules; reflexivity.
Qed.

Lemma absent_cgpa_scores_as_zero_witness :
  rule_based_score no_cgpa_two_skills
  = rule_based_score (set_cgpa no_cgpa_two_skills (Some 0.0)) /\
  contribution (rules_on On_cgpa) no_cgpa_two_skills Skill_Improvement == 35.
Proof.
  destruct (absent_cgpa_scores_as_zero no_cgpa_two_skills (or_introl eq_refl))
    as (_ & H & _ & H35 & _).
  split; [exact H | exact H35].
Defined.

(** *** The empty text *)

(** C3, as claimed, fails: on the features of the empty text the scorer
    does not return 0.25 for the four categories. *)
Lemma empty_text_not_uniform :
  ~ (extract_features "" = empty_features /\
     exists out, rule_based_score (extract_features "") = inr out /\
                 forall k, score out k == 0.25).
Proof.
  intros (_ & out & R & U). vm_compute in R. injection R as <-.
  specialize (U Private_Job). vm_compute in U. discriminate U.
Qed.

(** C3, amended.  The empty text yields an absent CGPA, no skill and four
    false signals; on those features only Skill Improvement scores (105
    points), so the scorer returns 1 for Skill Improvement and 0 for the
    three other categories. *)
Theorem empty_text_scores :
  extract_features "" = empty_features /\
  exists raw out,
    unnormalized_scores (extract_features "") = inr raw /\
    score raw Skill_Improvement == 105 /\
    rule_based_score (extract_features "") = inr out /\
    keys out = all_categories /\
    score out Private_Job == 0 /\
    score out Higher_Studies == 0 /\
    score out Research_Field == 0 /\
    score out Skill_Improvement == 1.
Proof.
  split; [reflexivity |].
  eexists _, _. split; [vm_compute; reflexivity |].
  split; [reflexivity |].
  split; [vm_compute; reflexivity |].
  repeat split.
Qed.

(** *** Raising the CGPA from 6.0 to 9.5 *)

Section CgpaRaise.

Variable sk : list string.
Variables i p r ce : bool.

(** C6.  With the skills and the boolean signals fixed, the output for
    Higher Studies at CGPA 9.5 is at least the one at CGPA 6.0, and the
    output for Skill Improvement at CGPA 9.5 is at most the one at 6.0. *)
Theorem cgpa_raise_monotone :
  exists lo hi,
    rule_based_score (mkFeatures (Some 6.0) sk i p r ce) = inr lo /\
    rule_based_score (mkFeatures (Some 9.5) sk i p r ce) = inr hi /\
    score lo Higher_Studies <= score hi Higher_Studies /\
    score hi Skill_Improvement <= score lo Skill_Improvement.
Proof.
  cbv [rule_based_score unnormalized_scores score_rules skills_count
       skills has_internship has_projects has_research].
  set (n := List.length sk).
  destruct (Nat.leb_spec 10 n), (Nat.leb_spec 8 n), (Nat.leb_spec 6 n),
    (Nat.ltb_spec n 4), (Nat.ltb_spec n 6); try lia;
    destruct i, p, r;
    (eexists _, _;
     split; [vm_compute; reflexivity |];
     split; [vm_compute; reflexivity |];
     split; vm_compute; discriminate).
Qed.

End CgpaRaise.

(** *** Fusion *)

Lemma combine_analyzer (ml rule : Dict) :
  combine analyzer ml rule =
  map (fun k => (k, 0.5 * score ml k + 0.5 * score rule k)) all_categories.
Proof. reflexivity. Qed.

(** C4, as claimed, fails: with two all-zero distributions the weighted
    combination sums to 0, and the fusion still reports a winner. *)
Lemma zero_sum_still_has_winner :
  ~ (forall ml rule,
       py_sum (values (combine analyzer ml rule)) == 0 ->
       (forall k, score (renormalize (combine analyzer ml rule)) k == 0) /\
       winner (fuse analyzer ml rule) = None).
Proof.
  intros H. destruct (H all_zero all_zero) as [_ W]; [reflexivity |].
  vm_compute in W. discriminate W.
Qed.

(** C4, amended.  When the weighted combination of two distributions
    sums to 0, the division is skipped and the fused distribution stays
    the all-zero vector; the winner is still the arg-max of that vector:
    Private Job, the first category of the label map, with confidence 0. *)
Theorem zero_sum_fusion (ml rule : Dict) :
  (forall k, 0 <= score ml k) ->
  (forall k, 0 <= score rule k) ->
  py_sum (values (combine analyzer ml rule)) == 0 ->
  renormalize (combine analyzer ml rule) = combine analyzer ml rule /\
  (forall k, score (combine analyzer ml rule) k == 0) /\
  exists fu,
    fuse analyzer ml rule = inr fu /\
    ensemble_probs fu = combine analyzer ml rule /\
    final_category fu = Private_Job /\
    final_confidence fu == 0 /\
    winner (fuse analyzer ml rule) = Some Private_Job.
Proof.
  intros Hml Hrule. unfold fuse. rewrite combine_analyzer.
  cbv [all_categories map values py_sum fold_left snd].
  pose proof (Hml Private_Job). pose proof (Hml Higher_Studies).
  pose proof (Hml Research_Field). pose proof (Hml Skill_Improvement).
  pose proof (Hrule Private_Job). pose proof (Hrule Higher_Studies).
  pose proof (Hrule Research_Field). pose proof (Hrule Skill_Improvement).
  set (a := 0.5 * score ml Private_Job + 0.5 * score rule Private_Job).
  set (b := 0.5 * score ml Higher_Studies + 0.5 * score rule Higher_Studies).
  set (c := 0.5 * score ml Research_Field + 0.5 * score rule Research_Field).
  set (d := 0.5 * score ml Skill_Improvement + 0.5 * score rule Skill_Improvement).
  intros Hsum.
  assert (Ha : a == 0) by (subst a b c d; lra).
  assert (Hb : b == 0) by (subst a b c d; lra).
  assert (Hc : c == 0) by (subst a b c d; lra).
  assert (Hd : d == 0) by (subst a b c d; lra).
  assert (R : renormalize
                [(Private_Job, a); (Higher_Studies, b);
                 (Research_Field, c); (Skill_Improvement, d)]
              = [(Private_Job, a); (Higher_Studies, b);
                 (Research_Field, c); (Skill_Improvement, d)]).
  { unfold renormalize. cbv [values map py_sum fold_left snd].
    replace (Qltb 0 (0 + a + b + c + d)) with false; [reflexivity |].
    symmetry. apply Qltb_false. rewrite Hsum. apply Qle_refl. }
  split; [exact R |].
  split; [intros k; destruct k; assumption |].
  rewrite R.
  cbv [py_max_key fold_left snd fst].
  replace (Qltb a b) with false by (symmetry; apply Qltb_false; lra).
  replace (Qltb a c) with false by (symmetry; apply Qltb_false; lra).
  replace (Qltb a d) with false by (symmetry; apply Qltb_false; lra).
  eexists. split; [reflexivity |]. cbn.
  repeat split. exact Ha.
Qed.

Lemma zero_sum_fusion_witness :
  renormalize (combine analyzer all_zero all_zero)
  = combine analyzer all_zero all_zero /\
  winner (fuse analyzer all_zero all_zero) = Some Private_Job.
Proof.
  assert (N : forall k, 0 <= score all_zero k)
    by (intros k; destruct k; vm_compute; discriminate).
  destruct (zero_sum_fusion all_zero all_zero N N)
    as (R & _ & fu & _ & _ & _ & _ & W); [reflexivity |].
  split; [exact R | exact W].
Defined.

(** C5.  With weights 0.5/0.5 the example vectors combine to
    0.05, 0.35, 0.65, 0.05, which renormalize to 1/22, 7/22, 13/22, 1/22
    (0.0455, 0.3182, 0.5909, 0.0455 to four decimals); the winner is
    Research Field with confidence 13/22, about 0.591. *)
Theorem fusion_example :
  ml_weight analyzer == 0.5 /\ rule_weight analyzer == 0.5 /\
  dict_eq (combine analyzer example_ml example_rule)
    [ (Private_Job, 0.05); (Higher_Studies, 0.35);
      (Research_Field, 0.65); (Skill_Improvement, 0.05) ] /\
  dict_eq (renormalize (combine analyzer example_ml example_rule))
    [ (Private_Job, 1 # 22); (Higher_Studies, 7 # 22);
      (Research_Field, 13 # 22); (Skill_Improvement, 1 # 22) ] /\
  Forall2 (fun kv rounded => Qabs (snd kv - rounded) <= 0.00005)
    (renormalize (combine analyzer example_ml example_rule))
    [0.0455; 0.3182; 0.5909; 0.0455] /\
  exists fu,
    fuse analyzer example_ml example_rule = inr fu /\
    final_category fu = Research_Field /\
    final_confidence fu == 13 # 22 /\
    Qabs (final_confidence fu - 0.591) <= 0.0005.
Proof.
  split; [reflexivity |]. split; [reflexivity |].
  split; [repeat constructor |].
  split; [repeat constructor |].
  split; [repeat constructor; vm_compute; discriminate |].
  eexists. split; [vm_compute; reflexivity |].
  split; [reflexivity |]. split; [reflexivity |].
  vm_compute. discriminate.
Qed.

(** *** Recommendations *)

(** C8.  For a result whose category is Skill Improvement, with two
    skills, no projects and a CGPA of 6.5, the recommendations are the
    core-language, build-projects, online-courses, hackathon and
    academic-performance suggestions, in this order. *)
Theorem skill_improvement_recommendations (result : Prediction) (q : Q) :
  category result = Skill_Improvement ->
  List.length (skills (features result)) = 2%nat ->
  has_projects (features result) = false ->
  cgpa (features result) = Some q ->
  q == 6.5 ->
  generate_recommendations result =
  [ "Learn core programming: Python, Java, or JavaScript";
    "Build 3-4 substantial projects";
    "Take online courses (Coursera, Udemy)";
    "Participate in hackathons";
    "Focus on improving academic performance" ]%string.
Proof.
  intros Hc Hs Hp Hq E.
  unfold generate_recommendations, cgpa_present_below.
  rewrite Hc, Hs, Hp, Hq.
  assert (Hnz : Qeq_bool q 0 = false).
  { apply not_true_iff_false. rewrite Qeq_bool_iff, E. discriminate. }
  assert (Hlt : Qltb q 7.0 = true).
  { apply Qltb_true. rewrite E. reflexivity. }
  rewrite Hnz, Hlt. reflexivity.
Qed.

Lemma skill_improvement_recommendations_witness :
  generate_recommendations skill_improvement_result =
  [ "Learn core programming: Python, Java, or JavaScript";
    "Build 3-4 substantial projects";
    "Take online courses (Coursera, Udemy)";
    "Participate in hackathons";
    "Focus on improving academic performance" ]%string.
Proof.
  apply (skill_improvement_recommendations skill_improvement_result 6.5);
    reflexivity.
Defined.

(** *** CGPA extraction *)

Lemma match_here_empty (kw : string) : match_here kw "" = None.
Proof. destruct kw; reflexivity. Qed.

Lemma drop_empty (i : nat) : drop i "" = ""%string.
Proof. destruct i; reflexivity. Qed.

(** [re.search] finds nothing exactly when the pattern matches nowhere. *)
Lemma re_search_none (kw text : string) :
  re_search kw text = None <-> no_match kw text.
Proof.
  unfold no_match, no_match_at.
  induction text as [|c text IH]; cbn [re_search].
  - rewrite match_here_empty. split; [| reflexivity].
    intros _ j. rewrite drop_empty. apply match_here_empty.
  - destruct (match_here kw (String c text)) as [g|] eqn:E.
    + split; [discriminate |]. intros H. specialize (H O). cbn [drop] in H.
      congruence.
    + rewrite IH. split.
      * intros H [|j]; [exact E | apply H].
      * intros H j. apply (H (S j)).
Qed.

(** [re.search] returns the group of the leftmost match. *)
Lemma re_search_leftmost (kw text : string) (i : nat) (g : string) :
  leftmost_match kw text i g -> re_search kw text = Some g.
Proof.
  unfold leftmost_match, matches_at, no_match_at.
  revert i. induction text as [|c text IH]; intros i [M L]; cbn [re_search].
  - rewrite drop_empty, match_here_empty in M. discriminate.
  - destruct i as [|i].
    + cbn [drop] in M. now rewrite M.
    + pose proof (L O ltac:(lia)) as L0. cbn [drop] in L0. rewrite L0.
      apply (IH i). split; [exact M |].
      intros j Hj. apply (L (S j)). lia.
Qed.

Lemma re_search_some (kw text g : string) :
  re_search kw text = Some g -> exists i, leftmost_match kw text i g.
Proof.
  unfold leftmost_match, matches_at, no_match_at.
  induction text as [|c text IH]; cbn [re_search].
  - rewrite match_here_empty. discriminate.
  - destruct (match_here kw (String c text)) as [g'|] eqn:E.
    + intros [= <-]. exists O. split; [exact E | lia].
    + intros H. destruct (IH H) as (i & M & L). exists (S i).
      split; [exact M |]. intros [|j] Hj; [exact E | apply L; lia].
Qed.

Lemma extract_cgpa_cgpa_first (text g : string) :
  re_search "CGPA" text = Some g ->
  _extract_cgpa text = Some (scale_cgpa (float_of_decimal g)).
Proof.
  intros H. unfold _extract_cgpa, patterns. cbn [first_pattern].
  rewrite H. reflexivity.
Qed.

Lemma extract_cgpa_gpa_second (text g : string) :
  re_search "CGPA" text = None ->
  re_search "GPA" text = Some g ->
  _extract_cgpa text = Some (scale_cgpa (float_of_decimal g)).
Proof.
  intros H1 H2. unfold _extract_cgpa, patterns. cbn [first_pattern].
  rewrite H1, H2. reflexivity.
Qed.

(** *** The matcher against the regular expression *)

Local Open Scope string_scope.

Lemma string_app_assoc (a b c : string) : (a ++ b) ++ c = a ++ b ++ c.
Proof. induction a as [|x a IH]; cbn [append]; [reflexivity | now rewrite IH]. Qed.

Lemma span_sound (p : ascii -> bool) (s : string) :
  s = fst (span p s) ++ snd (span p s) /\
  all_in p (fst (span p s)) = true /\
  starts_with p (snd (span p s)) = false.
Proof.
  induction s as [|c s IH]; cbn [span]; [repeat split |].
  destruct (p c) eqn:E.
  - destruct (span p s) as [run rest]. cbn [fst snd append all_in] in *.
    destruct IH as (A & B & C). rewrite E, B, <- A. repeat split. exact C.
  - cbn [fst snd append all_in starts_with]. repeat split. exact E.
Qed.

Lemma span_complete (p : ascii -> bool) (run rest : string) :
  all_in p run = true -> starts_with p rest = false ->
  span p (run ++ rest) = (run, rest).
Proof.
  intros A S. induction run as [|c run IH]; cbn [append].
  - destruct rest as [|c rest]; [reflexivity |]. cbn [span].
    cbn [starts_with] in S. now rewrite S.
  - cbn [all_in] in A. apply andb_true_iff in A as [Hc A].
    cbn [span]. now rewrite Hc, (IH A).
Qed.

Lemma match_keyword_sound (kw s rest : string) :
  match_keyword kw s = Some rest ->
  exists k, s = k ++ rest /\ same_nocase kw k.
Proof.
  revert s. induction kw as [|a kw IH]; intros s; cbn [match_keyword].
  - intros [= ->]. exists "". now split.
  - destruct s as [|c s]; [discriminate |].
    destruct (Ascii.eqb_spec (lower_char a) (lower_char c)) as [E | N];
      [| discriminate].
    intros H. destruct (IH _ H) as (k & -> & S). exists (String c k).
    split; [reflexivity | now split].
Qed.

Lemma match_keyword_complete (kw k rest : string) :
  same_nocase kw k -> match_keyword kw (k ++ rest) = Some rest.
Proof.
  revert k. induction kw as [|a kw IH]; intros k; destruct k as [|c k];
    cbn [same_nocase]; intros H; try (now elim H); try reflexivity.
  destruct H as [E S]. cbn [append match_keyword].
  rewrite E, Ascii.eqb_refl. now apply IH.
Qed.

Lemma match_number_spec (s g : string) :
  match_number s = Some g <->
  exists rest, s = g ++ rest /\ greedy_number g rest.
Proof.
  unfold match_number. split.
  - destruct (span_sound is_digit s) as (A & D & S).
    destruct (span is_digit s) as [ip r3]. cbn [fst snd] in *.
    destruct ip as [|d ip]; [discriminate |].
    assert (Plain : starts_with is_dot r3 = false ->
                    Some (String d ip) = Some g ->
                    exists rest, s = g ++ rest /\ greedy_number g rest).
    { intros Hdot [= <-]. exists r3. split; [exact A |].
      exists (String d ip). split; [discriminate |]. split; [exact D |].
      split; [exact S |]. now left. }
    destruct r3 as [|c r4]; [now apply Plain |].
    destruct (span_sound is_digit r4) as (A' & D' & S').
    destruct (span is_digit r4) as [fp rest]. cbn [fst snd] in *.
    destruct c as [[] [] [] [] [] [] [] []]; try (apply Plain; reflexivity).
    intros [= <-]. exists rest. split.
    + rewrite A, A'. cbn [append]. f_equal. now rewrite !string_app_assoc.
    + exists (String d ip). split; [discriminate |]. split; [exact D |].
      split; [exact S' |]. right. now exists fp.
  - intros (rest & -> & ip & Hne & D & S & [[-> Hdot] | (fp & -> & D')]).
    + rewrite (span_complete is_digit ip rest D S).
      destruct ip as [|d ip]; [now elim Hne |].
      destruct rest as [|c rest]; [reflexivity |].
      cbn [starts_with] in Hdot.
      destruct c as [[] [] [] [] [] [] [] []];
        (reflexivity || discriminate Hdot).
    + assert (E : (ip ++ "." ++ fp) ++ rest = ip ++ String "." (fp ++ rest))
        by (rewrite string_app_assoc; reflexivity).
      rewrite E, (span_complete is_digit ip (String "." (fp ++ rest)) D eq_refl).
      destruct ip as [|d ip]; [now elim Hne |].
      now rewrite (span_complete is_digit fp rest D' S).
Qed.

(** [match_here] decides the match of a pattern at the start of a text
    and returns its group. *)
Lemma match_here_spec (kw s g : string) :
  match_here kw s = Some g <-> pattern_match kw s g.
Proof.
  unfold match_here, pattern_match. split.
  - destruct (match_keyword kw s) as [r1|] eqn:K; [| discriminate].
    destruct (match_keyword_sound _ _ _ K) as (k & -> & Hk).
    destruct (span_sound is_sep r1) as (A & D & _).
    destruct (span is_sep r1) as [sep r2]. cbn [fst snd] in *.
    intros H. apply match_number_spec in H as (rest & -> & G).
    exists k, sep, rest. now rewrite A.
  - intros (k & sep & rest & -> & Hk & D & G).
    rewrite (match_keyword_complete kw k _ Hk).
    assert (S : starts_with is_sep (g ++ rest) = false).
    { destruct G as (ip & Hne & Dip & _ & [[-> _] | (fp & -> & _)]);
        (destruct ip as [|d ip]; [now elim Hne |]);
        cbn [append starts_with all_in] in *;
        apply andb_true_iff in Dip as [Hd _];
        destruct d as [[] [] [] [] [] [] [] []];
        (reflexivity || discriminate Hd). }
    rewrite (span_complete is_sep sep _ D S).
    apply match_number_spec. now exists rest.
Qed.

Lemma matches_at_pattern (kw text : string) (i : nat) (g : string) :
  matches_at kw text i g <-> pattern_at kw text i g.
Proof. apply match_here_spec. Qed.

Lemma no_match_at_pattern (kw text : string) (i : nat) :
  no_match_at kw text i <-> no_pattern_at kw text i.
Proof.
  unfold no_match_at, no_pattern_at. split.
  - intros H g P. apply match_here_spec in P. congruence.
  - intros H. destruct (match_here kw (drop i text)) as [g|] eqn:E;
      [| reflexivity].
    elim (H g). now apply match_here_spec.
Qed.

Lemma leftmost_match_pattern (kw text : string) (i : nat) (g : string) :
  leftmost_match kw text i g <-> leftmost_pattern kw text i g.
Proof.
  unfold leftmost_match, leftmost_pattern. rewrite matches_at_pattern.
  split; intros [M L]; (split; [exact M |]); intros j Hj;
    apply no_match_at_pattern; now apply L.
Qed.

Lemma no_match_pattern (kw text : string) :
  no_match kw text <-> pattern_nowhere kw text.
Proof.
  unfold no_match, pattern_nowhere.
  split; intros H j; apply no_match_at_pattern, H.
Qed.

(** C7, as claimed, fails: in this text the first match of either
    keyword is [GPA: 8], and the extraction returns 9. *)
Lemma gpa_before_cgpa :
  ~ (forall text i g,
       leftmost_pattern_of_either text i g ->
       exists v, _extract_cgpa text = Some v /\
                 v == scale_cgpa (float_of_decimal g)).
Proof.
  intros H.
  destruct (H "GPA: 8 CGPA: 9" O "8") as (v & E & V).
  - split; [right; apply matches_at_pattern; reflexivity | intros j Hj; lia].
  - vm_compute in E. injection E as <-. vm_compute in V. discriminate V.
Qed.

(** C7, amended.  The extraction returns the number at the leftmost
    match of the [CGPA] pattern and, only when that pattern matches
    nowhere, the number at the leftmost match of the [GPA] pattern.  The
    number is the float read from the group, the binary64 number nearest
    to what is written; it is divided by 10 as a float when it exceeds 10
    and kept when it is at most 10.  So the texts ending in 92 and 7.5
    give the floats 9.2 and 7.5, and 10.0000000000000001, which reads as
    10.0, is kept.  When neither pattern matches anywhere the CGPA is
    absent. *)
Theorem extract_cgpa_by_pattern_priority (text : string) :
  (forall i g, leftmost_pattern "CGPA" text i g ->
     _extract_cgpa text = Some (scale_cgpa (float_of_decimal g))) /\
  (pattern_nowhere "CGPA" text ->
   forall i g, leftmost_pattern "GPA" text i g ->
     _extract_cgpa text = Some (scale_cgpa (float_of_decimal g))) /\
  (forall i g, leftmost_pattern_of_either text i g ->
     pattern_at "CGPA" text i g \/ pattern_nowhere "CGPA" text ->
     _extract_cgpa text = Some (scale_cgpa (float_of_decimal g))) /\
  (pattern_nowhere "CGPA" text -> pattern_nowhere "GPA" text ->
     _extract_cgpa text = None) /\
  (_extract_cgpa text = None ->
     pattern_nowhere "CGPA" text /\ pattern_nowhere "GPA" text) /\
  (forall v, _extract_cgpa text = Some v ->
     exists kw i g,
       leftmost_pattern kw text i g /\
       v = scale_cgpa (float_of_decimal g) /\
       (kw = "CGPA" \/ kw = "GPA" /\ pattern_nowhere "CGPA" text)) /\
  (forall g, float_of_decimal g = round_double (decimal_value g)) /\
  (forall v, (10 < v -> scale_cgpa v = float_div v 10) /\
             (v <= 10 -> scale_cgpa v = v)) /\
  (exists v, _extract_cgpa "CGPA: 92" = Some v /\
             v == float_of_decimal "9.2" /\
             Qabs (v - 9.2) <= 1 # 1000000000000000) /\
  (exists v, _extract_cgpa "CGPA: 7.5" = Some v /\ v == 7.5) /\
  (exists v, _extract_cgpa "CGPA: 10.0000000000000001" = Some v /\ v == 10).
Proof.
  assert (P1 : forall i g, leftmost_pattern "CGPA" text i g ->
               _extract_cgpa text = Some (scale_cgpa (float_of_decimal g))).
  { intros i g L. apply extract_cgpa_cgpa_first.
    apply (re_search_leftmost _ _ i). now apply leftmost_match_pattern. }
  assert (P2 : pattern_nowhere "CGPA" text ->
               forall i g, leftmost_pattern "GPA" text i g ->
               _extract_cgpa text = Some (scale_cgpa (float_of_decimal g))).
  { intros N i g L. apply extract_cgpa_gpa_second.
    - now apply re_search_none, no_match_pattern.
    - apply (re_search_leftmost _ _ i). now apply leftmost_match_pattern. }
  split; [exact P1 |]. split; [exact P2 |].
  split; [| split; [| split; [| split; [| split; [| split]]]]].
  - intros i g [M L] [C | N].
    + apply (P1 i). split; [exact C |]. intros j Hj. now apply L.
    + apply (P2 N i). split.
      * destruct M as [M | M]; [| exact M]. now elim (N i g).
      * intros j Hj. now apply L.
  - intros N1 N2. apply no_match_pattern, re_search_none in N1, N2.
    unfold _extract_cgpa, patterns. cbn [first_pattern].
    now rewrite N1, N2.
  - unfold _extract_cgpa, patterns. cbn [first_pattern].
    destruct (re_search "CGPA" text) eqn:E1; [discriminate |].
    destruct (re_search "GPA" text) eqn:E2; [discriminate |].
    intros _. split; now apply no_match_pattern, re_search_none.
  - intros v. unfold _extract_cgpa, patterns. cbn [first_pattern].
    destruct (re_search "CGPA" text) as [g|] eqn:E1.
    + intros [= <-]. destruct (re_search_some _ _ _ E1) as [i L].
      apply leftmost_match_pattern in L.
      exists "CGPA", i, g. auto.
    + destruct (re_search "GPA" text) as [g|] eqn:E2; [| discriminate].
      intros [= <-]. destruct (re_search_some _ _ _ E2) as [i L].
      apply leftmost_match_pattern in L.
      exists "GPA", i, g. apply re_search_none, no_match_pattern in E1. auto.
  - reflexivity.
  - intros v. unfold scale_cgpa. split; intros Hv.
    + apply Qlt_not_le in Hv. rewrite <- Qleb_true in Hv.
      apply not_true_is_false in Hv. now rewrite Hv.
    + apply Qleb_true in Hv. now rewrite Hv.
  - split; [| split].
    + eexists. split; [vm_compute; reflexivity |].
      split; [reflexivity | vm_compute; discriminate].
    + eexists. split; [vm_compute; reflexivity | reflexivity].
    + eexists. split; [vm_compute; reflexivity | reflexivity].
Qed.

Lemma extract_cgpa_by_pattern_priority_witness :
  leftmost_pattern "CGPA" "CGPA: 92" 0 "92" /\
  _extract_cgpa "CGPA: 92" = Some (scale_cgpa (float_of_decimal "92")).
Proof.
  assert (L : leftmost_pattern "CGPA" "CGPA: 92" 0 "92").
  { split; [apply matches_at_pattern; reflexivity | intros j Hj; lia]. }
  split; [exact L |].
  exact (proj1 (extract_cgpa_by_pattern_priority "CGPA: 92") O "92" L).
Defined.

Local Close Scope string_scope.

(** ** Further properties of the extraction *)

Local Open Scope string_scope.

Lemma lower_char_idem (c : ascii) : lower_char (lower_char c) = lower_char c.
Proof. destruct c as [[] [] [] [] [] [] [] []]; reflexivity. Qed.

Lemma is_digit_lower_char (c : ascii) : is_digit (lower_char c) = is_digit c.
Proof. destruct c as [[] [] [] [] [] [] [] []]; reflexivity. Qed.

Lemma is_sep_lower_char (c : ascii) : is_sep (lower_char c) = is_sep c.
Proof. destruct c as [[] [] [] [] [] [] [] []]; reflexivity. Qed.

Lemma lower_char_digit (c : ascii) : is_digit c = true -> lower_char c = c.
Proof. destruct c as [[] [] [] [] [] [] [] []]; (reflexivity || discriminate). Qed.

Lemma lower_idem (s : string) : lower (lower s) = lower s.
Proof.
  induction s as [|c s IH]; cbn [lower]; [reflexivity |].
  now rewrite lower_char_idem, IH.
Qed.

Lemma lower_app (a b : string) : lower (a ++ b) = lower a ++ lower b.
Proof.
  induction a as [|c a IH]; cbn [lower append]; [reflexivity |].
  now rewrite IH.
Qed.

Lemma lower_all_digits (s : string) : all_digits s = true -> lower s = s.
Proof.
  induction s as [|c s IH]; cbn [all_digits lower]; [reflexivity |].
  intros H. apply andb_true_iff in H as [Hc Hs].
  now rewrite (lower_char_digit c Hc), IH.
Qed.

(** The two parts of a greedy run. *)
Lemma span_app (p : ascii -> bool) (s : string) :
  s = fst (span p s) ++ snd (span p s).
Proof.
  induction s as [|c s IH]; cbn [span]; [reflexivity |].
  destruct (p c); [| reflexivity].
  destruct (span p s) as [run rest]. cbn [fst snd append] in *. now rewrite <- IH.
Qed.

Lemma span_digits (s : string) : all_digits (fst (span is_digit s)) = true.
Proof.
  induction s as [|c s IH]; cbn [span]; [reflexivity |].
  destruct (is_digit c) eqn:E; [| reflexivity].
  destruct (span is_digit s) as [run rest]. cbn [fst all_digits] in *.
  now rewrite E, IH.
Qed.

Lemma span_lower (p : ascii -> bool) (s : string) :
  (forall c, p (lower_char c) = p c) ->
  span p (lower s) = (lower (fst (span p s)), lower (snd (span p s))).
Proof.
  intros Hp. induction s as [|c s IH]; cbn [span lower]; [reflexivity |].
  rewrite Hp. destruct (p c); [| reflexivity].
  rewrite IH. destruct (span p s) as [run rest]. reflexivity.
Qed.

Lemma match_number_lower (s : string) :
  match_number (lower s) = match_number s.
Proof.
  unfold match_number. rewrite (span_lower is_digit s is_digit_lower_char).
  pose proof (span_digits s) as D.
  destruct (span is_digit s) as [ip rest]. cbn [fst snd] in *.
  rewrite (lower_all_digits ip D).
  destruct ip as [|d ip]; [reflexivity |].
  destruct rest as [|c rest]; [reflexivity |]. cbn [lower].
  rewrite (span_lower is_digit rest is_digit_lower_char).
  pose proof (span_digits rest) as D'.
  destruct (span is_digit rest) as [fp rest']. cbn [fst snd] in *.
  rewrite (lower_all_digits fp D').
  destruct c as [[] [] [] [] [] [] [] []]; reflexivity.
Qed.

Lemma match_keyword_lower (kw s : string) :
  match_keyword kw (lower s) =
  match match_keyword kw s with
  | Some rest => Some (lower rest)
  | None => None
  end.
Proof.
  revert s. induction kw as [|k kw IH]; intros s; [reflexivity |].
  destruct s as [|c s]; [reflexivity |]. cbn [lower match_keyword].
  rewrite lower_char_idem.
  destruct (Ascii.eqb (lower_char k) (lower_char c)); [apply IH | reflexivity].
Qed.

Lemma match_here_lower (kw s : string) :
  match_here kw (lower s) = match_here kw s.
Proof.
  unfold match_here. rewrite match_keyword_lower.
  destruct (match_keyword kw s) as [rest|]; [| reflexivity].
  rewrite (span_lower is_sep rest is_sep_lower_char).
  destruct (span is_sep rest) as [run rest']. cbn [fst snd].
  apply match_number_lower.
Qed.

Lemma re_search_lower (kw s : string) :
  re_search kw (lower s) = re_search kw s.
Proof.
  induction s as [|c s IH].
  - reflexivity.
  - cbn [lower re_search].
    change (String (lower_char c) (lower s)) with (lower (String c s)).
    rewrite match_here_lower.
    destruct (match_here kw (String c s)); [reflexivity | exact IH].
Qed.

(** X1.  The extraction does not see the case of the text: the lowered
    text has the same CGPA, skills and signals. *)
Theorem extract_features_lower (text : string) :
  extract_features (lower text) = extract_features text.
Proof.
  unfold extract_features, _has_keyword, _extract_skills, _extract_cgpa, patterns.
  cbn [first_pattern]. rewrite lower_idem, !re_search_lower. reflexivity.
Qed.

(** *** Substrings *)

Lemma prefix_spec (sub text : string) :
  String.prefix sub text = true <-> exists post, text = sub ++ post.
Proof.
  revert text. induction sub as [|a sub IH]; intros text.
  - split; [intros _; now exists text | intros _; now destruct text].
  - destruct text as [|b text]; cbn [String.prefix append].
    + split; [discriminate | intros [post H]; discriminate].
    + destruct (ascii_dec a b) as [-> | N].
      * rewrite IH. split; intros [post H]; exists post; congruence.
      * split; [discriminate | intros [post H]; congruence].
Qed.

(** [sub in text] holds exactly when [text] is some [pre + sub + post]. *)
Lemma contains_spec (sub text : string) :
  contains sub text = true <-> exists pre post, text = pre ++ sub ++ post.
Proof.
  induction text as [|c text IH]; cbn [contains]; rewrite orb_true_iff, prefix_spec.
  - split.
    + intros [[post H] | H]; [| discriminate]. now exists "", post.
    + intros (pre & post & H). left. destruct pre as [|? ?]; [| discriminate].
      now exists post.
  - rewrite IH. split.
    + intros [[post H] | (pre & post & H)].
      * now exists "", post.
      * exists (String c pre), post. cbn [append]. now rewrite H.
    + intros (pre & post & H). destruct pre as [|c' pre].
      * left. now exists post.
      * right. cbn [append] in H. injection H as _ H. now exists pre, post.
Qed.

Lemma append_assoc (a b c : string) : (a ++ b) ++ c = a ++ b ++ c.
Proof. induction a as [|x a IH]; cbn [append]; [reflexivity | now rewrite IH]. Qed.

Lemma contains_embedded (sub pre text post : string) :
  contains sub text = true -> contains sub (pre ++ text ++ post) = true.
Proof.
  rewrite !contains_spec. intros (a & b & ->).
  exists (pre ++ a), (b ++ post). now rewrite !append_assoc.
Qed.

Lemma contains_trans (a b text : string) :
  contains a b = true -> contains b text = true -> contains a text = true.
Proof.
  rewrite (contains_spec a b), (contains_spec b text). intros (p & q & ->) (pre & post & ->).
  apply contains_embedded. apply contains_embedded. apply contains_spec.
  exists "", "". cbn [append]. clear. induction a as [|x a IH]; cbn [append]; congruence.
Qed.

Lemma has_keyword_embedded (kws : list string) (pre text post : string) :
  implb (_has_keyword text kws) (_has_keyword (pre ++ text ++ post) kws) = true.
Proof.
  unfold _has_keyword. destruct (existsb _ kws) eqn:E; [| reflexivity]. cbn [implb].
  apply existsb_exists in E as (kw & Hin & Hc). apply existsb_exists.
  exists kw. split; [exact Hin |]. rewrite !lower_app. now apply contains_embedded.
Qed.

(** X2.  Text around a resume never hides a finding: every skill found
    in [text] is found in [pre + text + post], and every signal that is
    true on [text] is true on the larger text. *)
Theorem extraction_grows_with_text (pre text post : string) :
  let larger := pre ++ text ++ post in
  incl (skills (extract_features text)) (skills (extract_features larger)) /\
  implb (has_internship (extract_features text))
        (has_internship (extract_features larger)) = true /\
  implb (has_projects (extract_features text))
        (has_projects (extract_features larger)) = true /\
  implb (has_research (extract_features text))
        (has_research (extract_features larger)) = true /\
  implb (has_certifications (extract_features text))
        (has_certifications (extract_features larger)) = true.
Proof.
  cbv zeta. cbn [extract_features skills has_internship has_projects
                 has_research has_certifications].
  split; [| repeat split; apply has_keyword_embedded].
  unfold _extract_skills. intros s Hs.
  apply filter_In in Hs as [Hin Hc]. apply filter_In. split; [exact Hin |].
  rewrite !lower_app. now apply contains_embedded.
Qed.

Lemma skills_db_NoDup : NoDup skills_db.
Proof.
  unfold skills_db.
  repeat (constructor; [cbn [In]; intros H;
                        repeat (destruct H as [H | H]; [discriminate H |]);
                        exact H |]).
  constructor.
Qed.

(** X3.  The skills returned are the vocabulary entries whose lowercase
    form occurs in the lowered text, each once, so at most 23 of them. *)
Theorem extract_skills_spec (text : string) :
  (forall s, In s (_extract_skills text) <->
             In s skills_db /\
             exists pre post, lower text = pre ++ lower s ++ post) /\
  NoDup (_extract_skills text) /\
  (List.length (_extract_skills text) <= 23)%nat.
Proof.
  unfold _extract_skills. split; [| split].
  - intros s. rewrite filter_In, contains_spec. reflexivity.
  - apply NoDup_filter, skills_db_NoDup.
  - etransitivity; [apply filter_length_le | reflexivity].
Qed.

Lemma skill_implied (a b text : string) :
  In a skills_db ->
  contains (lower a) (lower b) = true ->
  In b (_extract_skills text) -> In a (_extract_skills text).
Proof.
  unfold _extract_skills. intros Ha Hab Hb.
  apply filter_In in Hb as [_ Hb]. apply filter_In. split; [exact Ha |].
  eapply contains_trans; eassumption.
Qed.

Lemma drop_suffix (i : nat) (text : string) :
  exists pre, text = pre ++ drop i text.
Proof.
  revert text. induction i as [|i IH]; intros text; cbn [drop].
  - now exists "".
  - destruct text as [|c text]; [now exists "" |].
    destruct (IH text) as [pre H]. exists (String c pre). cbn [append]. now rewrite <- H.
Qed.

Lemma match_here_cgpa_starts_with_c (s g : string) :
  match_here "CGPA" s = Some g -> exists c rest, s = String c rest /\ lower_char c = "c"%char.
Proof.
  unfold match_here. destruct s as [|c rest]; [discriminate |].
  cbn [match_keyword]. destruct (Ascii.eqb_spec (lower_char "C") (lower_char c)) as [E | N].
  - intros _. exists c, rest. split; [reflexivity | now rewrite <- E].
  - discriminate.
Qed.

(** X4.  Skills are found by substring, so some findings come together:
    JavaScript brings Java, C++ brings C, and every text in which the
    CGPA pattern matches counts the skill C. *)
Theorem skills_found_together (text : string) :
  (In "JavaScript" (_extract_skills text) -> In "Java" (_extract_skills text)) /\
  (In "C++" (_extract_skills text) -> In "C" (_extract_skills text)) /\
  (re_search "CGPA" text <> None -> In "C" (_extract_skills text)).
Proof.
  split; [| split].
  - apply skill_implied; [cbn; tauto | reflexivity].
  - apply skill_implied; [cbn; tauto | reflexivity].
  - intros H. destruct (re_search "CGPA" text) as [g|] eqn:E; [| now elim H].
    destruct (re_search_some _ _ _ E) as (i & M & _).
    destruct (match_here_cgpa_starts_with_c _ _ M) as (c & rest & D & Hc).
    destruct (drop_suffix i text) as [pre P]. rewrite D in P.
    unfold _extract_skills. apply filter_In. split; [cbn; tauto |].
    apply contains_spec. exists (lower pre), (lower rest).
    rewrite P, lower_app. cbn [lower append]. now rewrite Hc.
Qed.

Lemma skills_found_together_witness :
  In "Java" (_extract_skills "CGPA: 8 JavaScript C++") /\
  In "C" (_extract_skills "CGPA: 8 JavaScript C++").
Proof.
  destruct (skills_found_together "CGPA: 8 JavaScript C++") as (H1 & H2 & H3).
  split.
  - apply H1. vm_compute. tauto.
  - apply H3. vm_compute. discriminate.
Defined.

(** *** The number that is read *)

Lemma match_keyword_app (kw s rest : string) :
  match_keyword kw s = Some rest -> exists k, s = k ++ rest.
Proof.
  revert s. induction kw as [|a kw IH]; intros s; cbn [match_keyword].
  - intros [= ->]. now exists "".
  - destruct s as [|c s]; [discriminate |].
    destruct (Ascii.eqb (lower_char a) (lower_char c)); [| discriminate].
    intros H. destruct (IH _ H) as [k ->]. now exists (String c k).
Qed.

Lemma match_number_shape (s g : string) :
  match_number s = Some g -> decimal_shape g /\ exists post, s = g ++ post.
Proof.
  unfold match_number.
  pose proof (span_app is_digit s) as A. pose proof (span_digits s) as D.
  destruct (span is_digit s) as [ip rest]. cbn [fst snd] in *.
  destruct ip as [|d ip]; [discriminate |].
  assert (Plain : Some (String d ip) = Some g ->
                  decimal_shape g /\ exists post, s = g ++ post).
  { intros [= <-]. split; [| now exists rest].
    exists (String d ip), "". repeat split; try assumption; [discriminate | now left]. }
  destruct rest as [|c rest]; [exact Plain |].
  pose proof (span_app is_digit rest) as A'. pose proof (span_digits rest) as D'.
  destruct (span is_digit rest) as [fp tail]. cbn [fst snd] in *.
  destruct c as [[] [] [] [] [] [] [] []]; try exact Plain.
  intros [= <-]. split.
  - exists (String d ip), fp. repeat split; try assumption; [discriminate | now right].
  - exists tail. rewrite A, A'. cbn [append]. f_equal.
    rewrite !append_assoc. reflexivity.
Qed.

Lemma match_here_shape (kw s g : string) :
  match_here kw s = Some g ->
  decimal_shape g /\ exists pre post, s = pre ++ g ++ post.
Proof.
  unfold match_here. destruct (match_keyword kw s) as [rest|] eqn:K; [| discriminate].
  destruct (match_keyword_app _ _ _ K) as [k ->].
  pose proof (span_app is_sep rest) as A.
  destruct (span is_sep rest) as [run rest']. cbn [fst snd] in A.
  intros H. destruct (match_number_shape _ _ H) as [S [post P]].
  split; [exact S |]. exists (k ++ run), post.
  rewrite A, P, !append_assoc. reflexivity.
Qed.

(** X5.  What [re.search] hands to [float] always has the shape [float]
    accepts, digits or digits, a dot and digits, and is a piece of the
    text. *)
Theorem re_search_group_shape (kw text g : string) :
  re_search kw text = Some g ->
  decimal_shape g /\ exists pre post, text = pre ++ g ++ post.
Proof.
  intros H. destruct (re_search_some _ _ _ H) as (i & M & _).
  destruct (match_here_shape _ _ _ M) as [S (a & post & P)].
  split; [exact S |].
  destruct (drop_suffix i text) as [pre T].
  exists (pre ++ a), post. rewrite T at 1. rewrite P, !append_assoc. reflexivity.
Qed.

Lemma re_search_group_shape_witness :
  decimal_shape "7.5" /\ exists pre post, "my GPA : 7.5/10" = pre ++ "7.5" ++ post.
Proof.
  apply (re_search_group_shape "GPA" "my GPA : 7.5/10" "7.5"). reflexivity.
Defined.

Local Close Scope string_scope.

Lemma digits_value_nonneg (s : string) (acc : Z) :
  (0 <= acc)%Z -> (0 <= digits_value acc s)%Z.
Proof.
  revert acc. induction s as [|c s IH]; intros acc H; cbn [digits_value];
    [exact H | apply IH; lia].
Qed.

Lemma decimal_value_nonneg (g : string) : 0 <= decimal_value g.
Proof.
  unfold decimal_value. destruct (span is_digit g) as [ip rest].
  destruct rest as [|c fp].
  - change 0 with (inject_Z 0). rewrite <- Zle_Qle.
    apply digits_value_nonneg. lia.
  - apply Qle_shift_div_l.
    + change 0 with (inject_Z 0). rewrite <- Zlt_Qlt.
      apply Z.pow_pos_nonneg; lia.
    + rewrite Qmult_0_l. change 0 with (inject_Z 0). rewrite <- Zle_Qle.
      apply digits_value_nonneg, digits_value_nonneg. lia.
Qed.

(** *** Rounding to binary64 *)



















(** ** Further properties of the rule scorer *)

Lemma unnormalized_scores_effect (f : ResumeFeatures) :
  exists raw,
    unnormalized_scores f = inr raw /\
    keys raw = all_categories /\
    forall k, score raw k == rule_effect f k.
Proof.
  destruct (unnormalized_scores_table f) as (raw & R & K & T).
  exists raw. split; [exact R |]. split; [exact K |].
  intros k. now rewrite T, rule_effect_table.
Qed.

Lemma rule_effect_bounds (f : ResumeFeatures) :
  (0 <= rule_effect f Private_Job <= 100) /\
  (-5 <= rule_effect f Higher_Studies <= 75) /\
  (0 <= rule_effect f Research_Field <= 95) /\
  (0 <= rule_effect f Skill_Improvement <= 105).
Proof.
  cbv [rule_effect category_eqb].
  generalize (cgpa_or_zero f) (skills_count f); intros q n.
  destruct f as [cg sk i p r ce]; cbv [has_internship has_projects has_research].
  repeat split.
  1-2: destruct i, (10 <=? n)%nat, (8 <=? n)%nat, (Qleb 7.5 q), p;
    vm_compute; discriminate.
  1-2: destruct (Qleb 9.0 q), (Qleb 8.5 q), (Qleb 8.0 q), p, (6 <=? n)%nat, i;
    vm_compute; discriminate.
  1-2: destruct r, (Qleb 9.0 q), (Qleb 8.5 q), p; vm_compute; discriminate.
  1-2: destruct (n <? 4)%nat, (n <? 6)%nat, (Qltb q 6.0), (Qltb q 7.0), i, p;
    vm_compute; discriminate.
Qed.

Lemma higher_studies_negative (f : ResumeFeatures) :
  rule_effect f Higher_Studies < 0 <->
  has_internship f = true /\ has_projects f = false /\
  (skills_count f < 6)%nat /\ cgpa_or_zero f < 8.0.
Proof.
  cbv [rule_effect category_eqb].
  generalize (cgpa_or_zero f) (skills_count f); intros q n.
  destruct f as [cg sk i p r ce]; cbv [has_internship has_projects has_research].
  destruct (Qleb 9.0 q) eqn:H90, (Qleb 8.5 q) eqn:H85, (Qleb 8.0 q) eqn:H80;
    rewrite ?Qleb_true, ?Qleb_false in *;
    destruct (Nat.leb_spec 6 n); destruct i, p;
    (split; [intros Hneg; try (vm_compute in Hneg; discriminate Hneg);
             repeat split; (lia || lra)
            | intros (Hi & Hp & Hn & Hq);
              try discriminate; try lia; try lra; reflexivity]).
Qed.

(** X7.  The unnormalized totals are bounded: Private Job in [0,100],
    Higher Studies in [-5,75], Research Field in [0,95] and Skill
    Improvement in [0,105].  Only Higher Studies can be negative, exactly
    for an internship without projects, fewer than 6 skills and a CGPA
    below 8.0, so the clamp of line 167 changes no other category. *)
Theorem unnormalized_scores_bounds (f : ResumeFeatures) :
  exists raw,
    unnormalized_scores f = inr raw /\
    (0 <= score raw Private_Job <= 100) /\
    (-5 <= score raw Higher_Studies <= 75) /\
    (0 <= score raw Research_Field <= 95) /\
    (0 <= score raw Skill_Improvement <= 105) /\
    (score raw Higher_Studies < 0 <->
       has_internship f = true /\ has_projects f = false /\
       (skills_count f < 6)%nat /\ cgpa_or_zero f < 8.0) /\
    (forall k, k <> Higher_Studies -> score (clamp raw) k == score raw k).
Proof.
  destruct (unnormalized_scores_effect f) as (raw & R & K & E).
  destruct (rule_effect_bounds f) as (B1 & B2 & B3 & B4).
  exists raw. split; [exact R |].
  rewrite !E. split; [exact B1 |]. split; [exact B2 |].
  split; [exact B3 |]. split; [exact B4 |].
  split; [apply higher_studies_negative |].
  intros k Hk. rewrite score_clamp by exact K. rewrite py_max2_Qmax, E.
  apply Q.max_r. destruct k; [apply B1 | now elim Hk | apply B3 | apply B4].
Qed.

(** *** The arg-max of a dict with the four keys *)

Lemma dict_item_score (d : Dict) (k : Category) :
  keys d = all_categories -> dict_item d k = inr (score d k).
Proof.
  intros H. destruct (four_keys d H) as (a & b & c & e & ->).
  destruct k; reflexivity.
Qed.

Lemma py_max_key_spec (d : Dict) :
  keys d = all_categories ->
  exists k, py_max_key d = inr k /\ first_argmax d k.
Proof.
  intros H. destruct (four_keys d H) as (a & b & c & e & ->).
  cbv [py_max_key fold_left snd fst].
  destruct (Qltb a b) eqn:E1; cbv [snd];
    [destruct (Qltb b c) eqn:E2 | destruct (Qltb a c) eqn:E2]; cbv [snd];
    [destruct (Qltb c e) eqn:E3 | destruct (Qltb b e) eqn:E3
    |destruct (Qltb c e) eqn:E3 | destruct (Qltb a e) eqn:E3];
    rewrite ?Qltb_true, ?Qltb_false in *;
    (eexists; split; [reflexivity |]; split;
     [ intros k'; destruct k'; cbn; lra
     | intros k'; destruct k'; cbn; intros L; try lia; lra ]).
Qed.

Lemma rule_based_score_spec (f : ResumeFeatures) :
  exists out,
    rule_based_score f = inr out /\
    keys out = all_categories /\
    (forall k, 0 <= score out k <= 1) /\
    exists k, score out k == 1.
Proof.
  destruct (unnormalized_scores_table f) as (raw & R & K & T).
  destruct (normalize_scores_spec raw K)
    as (out & m & N & Ko & _ & Hle & _ & Hpos & _).
  assert (Hm : 0 < m).
  { destruct (has_internship f) eqn:I.
    - eapply Qlt_le_trans; [| apply (Hle Private_Job)].
      eapply Qlt_le_trans; [| apply Q.le_max_r].
      rewrite T. eapply Qlt_le_trans; [| now apply private_job_with_internship].
      reflexivity.
    - eapply Qlt_le_trans; [| apply (Hle Skill_Improvement)].
      eapply Qlt_le_trans; [| apply Q.le_max_r].
      rewrite T.
      eapply Qlt_le_trans; [| now apply skill_improvement_without_internship].
      reflexivity. }
  destruct (Hpos Hm) as (_ & _ & Hr & H1).
  exists out. unfold rule_based_score. rewrite R. auto.
Qed.

(** X8.  The rule prediction, [max(rule_probs, key=rule_probs.get)], is
    always defined: it is the first category in label order whose
    normalized score is 1. *)
Theorem rule_prediction_is_first_full_score (f : ResumeFeatures) :
  exists out k,
    rule_based_score f = inr out /\
    py_max_key out = inr k /\
    score out k == 1 /\
    forall k', (category_index k' < category_index k)%nat -> score out k' < 1.
Proof.
  destruct (rule_based_score_spec f) as (out & R & K & Hr & k1 & H1).
  destruct (py_max_key_spec out K) as (k & M & Hmax & Hfirst).
  assert (E : score out k == 1).
  { apply Qle_antisym; [apply Hr |]. rewrite <- H1. apply Hmax. }
  exists out, k. split; [exact R |]. split; [exact M |]. split; [exact E |].
  intros k' L. rewrite <- E. now apply Hfirst.
Qed.

(** ** Further properties of the fusion *)

Lemma fold_left_Qplus_acc (xs : list Q) (a : Q) :
  fold_left Qplus xs a == a + py_sum xs.
Proof.
  unfold py_sum. revert a. induction xs as [|x xs IH]; intros a; cbn [fold_left].
  - ring.
  - rewrite (IH (a + x)), (IH (0 + x)). ring.
Qed.

Lemma py_sum_cons (x : Q) (xs : list Q) : py_sum (x :: xs) == x + py_sum xs.
Proof.
  unfold py_sum at 1. cbn [fold_left]. rewrite fold_left_Qplus_acc. ring.
Qed.

Lemma py_sum_map_div (t : Q) (xs : list Q) :
  py_sum (map (fun v => v / t) xs) == py_sum xs / t.
Proof.
  induction xs as [|x xs IH]; cbn [map].
  - reflexivity.
  - rewrite !py_sum_cons, IH. unfold Qdiv. ring.
Qed.

Lemma values_dict_map_values (g : Q -> Q) (d : Dict) :
  values (dict_map_values g d) = map g (values d).
Proof.
  unfold values, dict_map_values. rewrite !map_map. reflexivity.
Qed.

Lemma renormalize_spec (d : Dict) :
  (0 < py_sum (values d) ->
     renormalize d = dict_map_values (fun v => v / py_sum (values d)) d /\
     py_sum (values (renormalize d)) == 1) /\
  (py_sum (values d) <= 0 -> renormalize d = d).
Proof.
  unfold renormalize. split; intros H.
  - rewrite (proj2 (Qltb_true _ _) H), values_dict_map_values, py_sum_map_div.
    split; [reflexivity |].
    field. intros E. rewrite E in H. now apply Qlt_irrefl in H.
  - now rewrite (proj2 (Qltb_false _ _) H).
Qed.



Lemma keys_combine (ml rule : Dict) :
  keys (combine analyzer ml rule) = all_categories.
Proof. reflexivity. Qed.

Lemma score_combine (ml rule : Dict) (k : Category) :
  score (combine analyzer ml rule) k = 0.5 * score ml k + 0.5 * score rule k.
Proof. rewrite combine_analyzer. destruct k; reflexivity. Qed.

Lemma keys_renormalize (d : Dict) : keys (renormalize d) = keys d.
Proof.
  unfold renormalize. destruct (Qltb 0 (py_sum (values d))); [| reflexivity].
  apply keys_dict_map_values.
Qed.

Lemma bind_inr {A B : Type} (x : A) (f : A -> exn + B) :
  (y <- inr x ;; f y)%monad = f x.
Proof. reflexivity. Qed.

Lemma bind_inl {A B : Type} (e : exn) (f : A -> exn + B) :
  (y <- inl e ;; f y)%monad = inl e.
Proof. reflexivity. Qed.

Lemma fuse_spec (ml rule : Dict) :
  exists fu,
    fuse analyzer ml rule = inr fu /\
    ensemble_probs fu = renormalize (combine analyzer ml rule) /\
    keys (ensemble_probs fu) = all_categories /\
    (forall k, score (combine analyzer ml rule) k
               = 0.5 * score ml k + 0.5 * score rule k) /\
    final_confidence fu = score (ensemble_probs fu) (final_category fu) /\
    first_argmax (ensemble_probs fu) (final_category fu).
Proof.
  assert (K : keys (renormalize (combine analyzer ml rule)) = all_categories)
    by (rewrite keys_renormalize; apply keys_combine).
  destruct (py_max_key_spec _ K) as (k & M & A).
  unfold fuse. cbv zeta. rewrite M, bind_inr, (dict_item_score _ k K), bind_inr.
  eexists. split; [reflexivity |]. cbn [ensemble_probs final_confidence final_category].
  split; [reflexivity |]. split; [exact K |].
  split; [apply score_combine |]. split; [reflexivity | exact A].
Qed.

(** X10.  The fusion never raises, whatever keys the two dicts have: the
    fused dict has the four categories, a category missing from a dict
    counts 0 there, and the result names the first arg-max of the fused
    dict with its fused value as the confidence. *)
Theorem fuse_total (ml rule : Dict) :
  exists fu,
    fuse analyzer ml rule = inr fu /\
    ensemble_probs fu = renormalize (combine analyzer ml rule) /\
    keys (ensemble_probs fu) = all_categories /\
    (forall k, score (combine analyzer ml rule) k
               = 0.5 * score ml k + 0.5 * score rule k) /\
    final_confidence fu = score (ensemble_probs fu) (final_category fu) /\
    first_argmax (ensemble_probs fu) (final_category fu).
Proof. apply fuse_spec. Qed.

(** *** The whole prediction *)

Lemma id_to_label_valid (id : Z) :
  (0 <= id <= 3)%Z ->
  exists k, id_to_label label_map id = inr k /\ category_index k = Z.to_nat id.
Proof.
  intros H.
  assert (C : id = 0%Z \/ id = 1%Z \/ id = 2%Z \/ id = 3%Z) by lia.
  destruct C as [-> | [-> | [-> | ->]]]; eexists; split; reflexivity.
Qed.

Lemma id_to_label_invalid (id : Z) :
  ~ (0 <= id <= 3)%Z -> id_to_label label_map id = inl KeyError.
Proof.
  intros H. cbn [id_to_label label_map].
  destruct (Z.eqb_spec 3 id); [lia |]. destruct (Z.eqb_spec 2 id); [lia |].
  destruct (Z.eqb_spec 1 id); [lia |]. destruct (Z.eqb_spec 0 id); [lia |].
  reflexivity.
Qed.

Lemma ml_probs_to_dict_short (probs : list Q) :
  (List.length probs <= 4)%nat ->
  exists mld,
    ml_probs_to_dict label_map 0 probs [] = inr mld /\
    forall k, score mld k = nth (category_index k) probs 0.
Proof.
  intros H.
  destruct probs as [|p0 [|p1 [|p2 [|p3 [|p4 rest]]]]];
    cbn [List.length] in H; try lia;
    (eexists; split; [reflexivity | intros k; destruct k; reflexivity]).
Qed.

Lemma ml_probs_to_dict_long (probs : list Q) :
  (4 < List.length probs)%nat ->
  ml_probs_to_dict label_map 0 probs [] = inl KeyError.
Proof.
  intros H.
  destruct probs as [|p0 [|p1 [|p2 [|p3 [|p4 rest]]]]];
    cbn [List.length] in H; try lia. reflexivity.
Qed.

Lemma predict_ok (text : string) (id : Z) (probs : list Q) :
  (0 <= id <= 3)%Z ->
  (List.length probs <= 4)%nat ->
  exists r,
    predict analyzer text id probs = inr r /\
    features r = extract_features text /\
    rule_based_score (extract_features text) = inr (rule_probabilities r) /\
    py_max_key (rule_probabilities r) = inr (rule_prediction r) /\
    category_index (ml_prediction r) = Z.to_nat id /\
    (forall k, score (ml_probabilities r) k = nth (category_index k) probs 0) /\
    fuse analyzer (ml_probabilities r) (rule_probabilities r)
    = inr (mkFusion (category r) (confidence r) (probabilities r)).
Proof.
  intros Hid Hlen.
  destruct (id_to_label_valid id Hid) as (mp & Hmp & Imp).
  destruct (ml_probs_to_dict_short probs Hlen) as (mld & Hmld & Smld).
  destruct (rule_based_score_spec (extract_features text)) as (out & R & K & _).
  destruct (py_max_key_spec out K) as (rp & Hrp & _).
  destruct (fuse_spec mld out) as (fu & F & _).
  unfold predict. cbv zeta. cbn [label_map_of analyzer].
  rewrite Hmp, bind_inr, Hmld, bind_inr, R, bind_inr, Hrp, bind_inr, F, bind_inr.
  eexists. split; [reflexivity |].
  cbn [features rule_probabilities rule_prediction ml_prediction
       ml_probabilities category confidence probabilities].
  repeat split; try assumption. rewrite F. now destruct fu.
Qed.





(** X12.  [predict] raises exactly when the class id is not among 0..3
    or more than four class probabilities are given, and the exception is
    then a KeyError of the label lookup. *)
Theorem predict_raises (text : string) (id : Z) (probs : list Q) :
  (predict analyzer text id probs = inl KeyError <->
   ~ (0 <= id <= 3)%Z \/ (4 < List.length probs)%nat) /\
  predict analyzer text id probs <> inl ValueError.
Proof.
  destruct (Z_le_dec 0 id) as [L | L], (Z_le_dec id 3) as [U | U],
    (Nat.le_gt_cases (List.length probs) 4) as [N | N].
  1: { destruct (predict_ok text id probs (conj L U) N) as (r & P & _).
       rewrite P. split; [| discriminate].
       split; [discriminate | intros [H | H]; lia]. }
  1: { destruct (id_to_label_valid id (conj L U)) as (mp & Hmp & _).
       assert (P : predict analyzer text id probs = inl KeyError).
       { unfold predict. cbv zeta. cbn [label_map_of analyzer].
         now rewrite Hmp, bind_inr, (ml_probs_to_dict_long probs N), bind_inl. }
       rewrite P. split; [| discriminate]. split; auto. }
  all: assert (P : predict analyzer text id probs = inl KeyError)
    by (unfold predict; cbv zeta; cbn [label_map_of analyzer];
        rewrite id_to_label_invalid by lia; apply bind_inl);
    rewrite P; (split; [| discriminate]); split; [intros _; left; lia | auto].
Qed.

Lemma score_renormalize_le (d : Dict) (k k' : Category) :
  keys d = all_categories ->
  score d k' <= score d k ->
  score (renormalize d) k' <= score (renormalize d) k.
Proof.
  intros K H. destruct (Qlt_le_dec 0 (py_sum (values d))) as [T | T].
  - rewrite (proj1 (proj1 (renormalize_spec d) T)).
    rewrite !score_dict_map_values by exact K.
    unfold Qdiv. apply Qmult_le_compat_r; [exact H |].
    now apply Qlt_le_weak, Qinv_lt_0_compat.
  - now rewrite (proj2 (renormalize_spec d) T).
Qed.

(** X13.  When the classifier and the rules agree on a category, each
    rating it at least as high as every other category, no category gets
    a higher fused probability and the reported confidence is the fused
    probability of that category (the category reported is that one or
    an earlier one that ties with it). *)
Theorem fusion_keeps_agreement (ml rule : Dict) (k : Category) :
  (forall k', score ml k' <= score ml k) ->
  (forall k', score rule k' <= score rule k) ->
  exists fu,
    fuse analyzer ml rule = inr fu /\
    (forall k', score (ensemble_probs fu) k' <= score (ensemble_probs fu) k) /\
    final_confidence fu == score (ensemble_probs fu) k /\
    (category_index (final_category fu) <= category_index k)%nat.
Proof.
  intros Hml Hrule.
  destruct (fuse_spec ml rule) as (fu & F & E & Kf & Sc & Conf & Amax & Afirst).
  assert (L : forall k', score (ensemble_probs fu) k' <= score (ensemble_probs fu) k).
  { intros k'. rewrite E. apply score_renormalize_le; [apply keys_combine |].
    rewrite !Sc. pose proof (Hml k'). pose proof (Hrule k'). lra. }
  exists fu. split; [exact F |]. split; [exact L |]. split.
  - rewrite Conf. apply Qle_antisym; [apply L | apply Amax].
  - apply Nat.nlt_ge. intros Hlt. specialize (Afirst k Hlt).
    specialize (L (final_category fu)). lra.
Qed.

Lemma fusion_keeps_agreement_witness :
  exists fu,
    fuse analyzer example_rule example_rule = inr fu /\
    final_confidence fu == score (ensemble_probs fu) Research_Field.
Proof.
  destruct (fusion_keeps_agreement example_rule example_rule Research_Field)
    as (fu & F & _ & C & _).
  - intros k'; destruct k'; vm_compute; discriminate.
  - intros k'; destruct k'; vm_compute; discriminate.
  - exists fu. split; [exact F | exact C].
Defined.

(** *** The label map *)

Lemma id_to_label_error (lm : list (Category * Z)) (i : Z) (e : exn) :
  id_to_label lm i = inl e -> e = KeyError.
Proof.
  induction lm as [|[k v] lm IH]; cbn [id_to_label].
  - now intros [= <-].
  - destruct (id_to_label lm i); [| discriminate].
    destruct (Z.eqb v i); [discriminate | now intros [= <-]].
Qed.

(** X14.  [id_to_label], the inversion of the label map built in
    [__init__], is a true inverse when the ids are distinct: an id gives
    a category exactly when the map sends that category to it, and an id
    the map does not use raises KeyError. *)
Theorem id_to_label_inverts (lm : list (Category * Z)) (i : Z) :
  NoDup (map snd lm) ->
  (forall k, id_to_label lm i = inr k <-> In (k, i) lm) /\
  (id_to_label lm i = inl KeyError <-> ~ In i (map snd lm)).
Proof.
  induction lm as [|[k0 v] lm IH]; intros N.
  - cbn. split; [intros k; split; [discriminate | tauto] | tauto].
  - cbn [map snd] in N. apply NoDup_cons_iff in N as [Nv N].
    destruct (IH N) as [IHk IHe]. cbn [id_to_label In map snd].
    destruct (id_to_label lm i) as [e | k'] eqn:E.
    + pose proof (id_to_label_error _ _ _ E) as ->.
      assert (Hno : ~ In i (map snd lm)) by now apply IHe.
      destruct (Z.eqb_spec v i) as [-> | Hv].
      * split.
        -- intros k. split.
           ++ intros [= <-]. now left.
           ++ intros [[= <-] | Hin]; [reflexivity |].
              elim Hno. apply (in_map snd) in Hin. exact Hin.
        -- split; [discriminate | intros H; elim H; now left].
      * split.
        -- intros k. split; [discriminate |].
           intros [[= _ H] | Hin]; [now elim Hv |].
           elim Hno. apply (in_map snd) in Hin. exact Hin.
        -- split; [intros _ [H | H]; [now elim Hv | now elim Hno] | reflexivity].
    + assert (Hin : In (k', i) lm) by now apply IHk.
      assert (Hi : In i (map snd lm)) by (apply (in_map snd) in Hin; exact Hin).
      split.
      * intros k. split.
        -- intros [= <-]. now right.
        -- intros [[= _ H] | Hk]; [subst v; now elim Nv |].
           apply IHk in Hk. congruence.
      * split; [discriminate | intros H; elim H; now right].
Qed.

Lemma id_to_label_inverts_witness :
  id_to_label label_map 2 = inr Research_Field.
Proof.
  assert (N : NoDup (map snd label_map)).
  { cbn. repeat (constructor; [cbn; intros H;
                               repeat (destruct H as [H | H]; [discriminate H |]);
                               exact H |]).
    constructor. }
  apply (proj1 (id_to_label_inverts label_map 2 N) Research_Field).
  cbn. tauto.
Defined.

(** ** Further properties of the recommendations *)

Local Open Scope string_scope.

(** X15.  The recommendations are never empty and never repeat an item:
    exactly four for Higher Studies and for Research Field, two to four
    for Private Job, two to five for Skill Improvement. *)
Theorem recommendations_size (result : Prediction) :
  NoDup (generate_recommendations result) /\
  match category result with
  | Private_Job =>
      (2 <= List.length (generate_recommendations result) <= 4)%nat
  | Higher_Studies | Research_Field =>
      List.length (generate_recommendations result) = 4%nat
  | Skill_Improvement =>
      (2 <= List.length (generate_recommendations result) <= 5)%nat
  end.
Proof.
  unfold generate_recommendations.
  destruct (category result).
  - destruct (List.length (skills (features result)) <? 10)%nat,
      (negb (has_certifications (features result)));
      (split; [| cbn; lia]);
      repeat (constructor;
              [cbn [In app]; intros H;
               repeat (destruct H as [H | H]; [discriminate H |]); exact H |]);
      constructor.
  - split; [| reflexivity].
    repeat (constructor;
            [cbn [In app]; intros H;
             repeat (destruct H as [H | H]; [discriminate H |]); exact H |]);
    constructor.
  - split; [| reflexivity].
    repeat (constructor;
            [cbn [In app]; intros H;
             repeat (destruct H as [H | H]; [discriminate H |]); exact H |]);
    constructor.
  - destruct (List.length (skills (features result)) <? 5)%nat,
      (negb (has_projects (features result))),
      (cgpa_present_below (features result) 7.0);
      (split; [| cbn; lia]);
      repeat (constructor;
              [cbn [In app]; intros H;
               repeat (destruct H as [H | H]; [discriminate H |]); exact H |]);
      constructor.
Qed.

Lemma cgpa_present_below_spec (f : ResumeFeatures) (hi : Q) :
  cgpa_present_below f hi = true <->
  exists q, cgpa f = Some q /\ ~ q == 0 /\ q < hi.
Proof.
  unfold cgpa_present_below. destruct (cgpa f) as [q|].
  - rewrite andb_true_iff, negb_true_iff, Qltb_true.
    rewrite <- not_true_iff_false, Qeq_bool_iff. split.
    + intros [H1 H2]. now exists q.
    + intros (q' & [= <-] & H1 & H2). now split.
  - split; [discriminate | intros (q & H & _); discriminate].
Qed.

(** X16.  Each conditional suggestion appears exactly under its
    condition: the academic one for Skill Improvement with a CGPA that is
    present, not 0 and below 7.0 (an extracted CGPA of 0 gets none), the
    core-language and build-projects ones for Skill Improvement with
    fewer than 5 skills and without projects, the technologies and
    certifications ones for Private Job with fewer than 10 skills and
    without certifications. *)
Theorem conditional_recommendations (result : Prediction) :
  let recs := generate_recommendations result in
  let f := features result in
  (In "Focus on improving academic performance" recs <->
     category result = Skill_Improvement /\
     exists q, cgpa f = Some q /\ ~ q == 0 /\ q < 7.0) /\
  (In "Learn core programming: Python, Java, or JavaScript" recs <->
     category result = Skill_Improvement /\ (List.length (skills f) < 5)%nat) /\
  (In "Build 3-4 substantial projects" recs <->
     category result = Skill_Improvement /\ has_projects f = false) /\
  (In "Learn 2-3 more in-demand technologies" recs <->
     category result = Private_Job /\ (List.length (skills f) < 10)%nat) /\
  (In "Get industry certifications (AWS, Azure, etc.)" recs <->
     category result = Private_Job /\ has_certifications f = false).
Proof.
  cbv zeta. rewrite <- cgpa_present_below_spec, <- !Nat.ltb_lt.
  unfold generate_recommendations.
  destruct (category result);
    [ destruct (List.length (skills (features result)) <? 10)%nat,
        (has_certifications (features result))
    | | | destruct (List.length (skills (features result)) <? 5)%nat,
        (has_projects (features result)),
        (cgpa_present_below (features result) 7.0) ];
    cbn [negb app In];
    repeat match goal with
           | |- (_ <-> _) /\ _ => split
           | |- _ <-> _ => split
           end;
    try (intros H;
         repeat (destruct H as [H | H]; try discriminate H);
         solve [now elim H | auto]);
    solve [ auto 10
          | intros [Hc Hb]; solve [discriminate Hc | discriminate Hb] ].
Qed.

Local Close Scope string_scope.

(** ** The unnormalized totals as the CGPA grows *)

Lemma cgpa_or_zero_set (f : ResumeFeatures) (q : Q) :
  cgpa_or_zero (set_cgpa f (Some q)) == q.
Proof. now apply cgpa_or_zero_some. Qed.

Lemma rule_effect_monotone (f : ResumeFeatures) (q q' : Q) :
  q <= q' ->
  rule_effect (set_cgpa f (Some q)) Private_Job
    <= rule_effect (set_cgpa f (Some q')) Private_Job /\
  rule_effect (set_cgpa f (Some q)) Higher_Studies
    <= rule_effect (set_cgpa f (Some q')) Higher_Studies /\
  rule_effect (set_cgpa f (Some q)) Research_Field
    <= rule_effect (set_cgpa f (Some q')) Research_Field /\
  rule_effect (set_cgpa f (Some q')) Skill_Improvement
    <= rule_effect (set_cgpa f (Some q)) Skill_Improvement.
Proof.
  intros H. rewrite <- (cgpa_or_zero_set f q), <- (cgpa_or_zero_set f q') in H.
  cbv [rule_effect category_eqb skills_count].
  revert H.
  generalize (cgpa_or_zero (set_cgpa f (Some q)))
             (cgpa_or_zero (set_cgpa f (Some q'))).
  intros z z' H.
  destruct f as [cg sk i p r ce];
    cbv [set_cgpa skills has_internship has_projects has_research].
  generalize (List.length sk); intros n.
  repeat split.
  - destruct (Qleb 7.5 z) eqn:A, (Qleb 7.5 z') eqn:A';
      rewrite ?Qleb_true, ?Qleb_false in *; try (exfalso; lra);
      destruct i, (10 <=? n)%nat, (8 <=? n)%nat, p; vm_compute; discriminate.
  - destruct (Qleb 9.0 z) eqn:A, (Qleb 9.0 z') eqn:A',
      (Qleb 8.5 z) eqn:B, (Qleb 8.5 z') eqn:B',
      (Qleb 8.0 z) eqn:C, (Qleb 8.0 z') eqn:C';
      rewrite ?Qleb_true, ?Qleb_false in *; try (exfalso; lra);
      destruct p, (6 <=? n)%nat, i; vm_compute; discriminate.
  - destruct (Qleb 9.0 z) eqn:A, (Qleb 9.0 z') eqn:A',
      (Qleb 8.5 z) eqn:B, (Qleb 8.5 z') eqn:B';
      rewrite ?Qleb_true, ?Qleb_false in *; try (exfalso; lra);
      destruct r, p; vm_compute; discriminate.
  - destruct (Qltb z 6.0) eqn:A, (Qltb z' 6.0) eqn:A',
      (Qltb z 7.0) eqn:B, (Qltb z' 7.0) eqn:B';
      rewrite ?Qltb_true, ?Qltb_false in *; try (exfalso; lra);
      destruct (n <? 4)%nat, (n <? 6)%nat, i, p; vm_compute; discriminate.
Qed.

(** X17.  With everything else fixed, a larger CGPA never lowers the
    unnormalized totals of Private Job, Higher Studies and Research
    Field and never raises the one of Skill Improvement.  This is a
    property of the totals only: after the division by the maximum the
    Higher Studies output can drop, as it does from CGPA 7.4 to 7.5 for a
    record with an internship, projects and ten skills. *)
Theorem unnormalized_monotone_in_cgpa (f : ResumeFeatures) (q q' : Q) :
  q <= q' ->
  (exists raw raw',
     unnormalized_scores (set_cgpa f (Some q)) = inr raw /\
     unnormalized_scores (set_cgpa f (Some q')) = inr raw' /\
     score raw Private_Job <= score raw' Private_Job /\
     score raw Higher_Studies <= score raw' Higher_Studies /\
     score raw Research_Field <= score raw' Research_Field /\
     score raw' Skill_Improvement <= score raw Skill_Improvement) /\
  (exists sk out out',
     List.length sk = 10%nat /\
     rule_based_score (mkFeatures (Some 7.4) sk true true false false) = inr out /\
     rule_based_score (mkFeatures (Some 7.5) sk true true false false) = inr out' /\
     score out' Higher_Studies < score out Higher_Studies).
Proof.
  intros H. split.
  - destruct (unnormalized_scores_effect (set_cgpa f (Some q))) as (raw & R & _ & E).
    destruct (unnormalized_scores_effect (set_cgpa f (Some q'))) as (raw' & R' & _ & E').
    exists raw, raw'. split; [exact R |]. split; [exact R' |].
    rewrite !E, !E'. now apply rule_effect_monotone.
  - exists (firstn 10 skills_db). eexists _, _.
    split; [reflexivity |].
    split; [vm_compute; reflexivity |].
    split; [vm_compute; reflexivity |]. reflexivity.
Qed.

Lemma unnormalized_monotone_in_cgpa_witness :
  exists raw raw',
    unnormalized_scores (set_cgpa strong_intern (Some 6.0)) = inr raw /\
    unnormalized_scores (set_cgpa strong_intern (Some 9.5)) = inr raw' /\
    score raw Higher_Studies <= score raw' Higher_Studies.
Proof.
  destruct (unnormalized_monotone_in_cgpa strong_intern 6.0 9.5)
    as [(raw & raw' & R & R' & _ & Hs & _) _].
  - vm_compute. discriminate.
  - exists raw, raw'. auto.
Defined.

(** ** The keyword signals *)

Local Open Scope string_scope.

Lemma has_keyword_spec (text : string) (kws : list string) :
  _has_keyword text kws = true <->
  exists kw, In kw kws /\ exists pre post, lower text = pre ++ kw ++ post.
Proof.
  unfold _has_keyword. rewrite existsb_exists.
  split; intros (kw & Hin & H); exists kw; (split; [exact Hin |]);
    now apply contains_spec.
Qed.

(** X18.  A signal is true exactly when one of its keywords occurs in
    the lowered text, inside a word or not.  For the internship signal
    the keyword [internship] adds nothing: the signal is true exactly
    when [intern] occurs. *)
Theorem keyword_signals (text : string) :
  (has_internship (extract_features text) = true <->
     exists pre post, lower text = pre ++ "intern" ++ post) /\
  (has_projects (extract_features text) = true <->
     exists pre post, lower text = pre ++ "project" ++ post) /\
  (has_research (extract_features text) = true <->
     exists kw, In kw ["research"; "publication"; "paper"] /\
       exists pre post, lower text = pre ++ kw ++ post) /\
  (has_certifications (extract_features text) = true <->
     exists kw, In kw ["certified"; "certificate"; "certification"] /\
       exists pre post, lower text = pre ++ kw ++ post).
Proof.
  cbn [extract_features has_internship has_projects has_research
       has_certifications].
  rewrite !has_keyword_spec. split; [| split; [| split; reflexivity]].
  - split.
    + intros (kw & [<- | [<- | []]] & pre & post & H).
      * now exists pre, post.
      * exists pre, ("ship" ++ post). rewrite H. reflexivity.
    + intros (pre & post & H). exists "intern". split; [now left |].
      now exists pre, post.
  - split.
    + intros (kw & [<- | []] & H). exact H.
    + intros H. exists "project". split; [now left | exact H].
Qed.

Local Close Scope string_scope.
